(** * Brush Tag Selector docker: the flow layout and the tag mirror file

    A shallow embedding of [brush_tag_selector_docker.py]:

    - the Qt geometry values the layout computes with ([QSize], [QPoint],
      [QRect]), as PyQt5 defines them;
    - [FlowLayout]: [addItem], [count], [itemAt], [takeAt],
      [heightForWidth], [setGeometry], [_doLayout];
    - [BrushTagSelectorDocker]: [_sync_tags_from_krita], [_rebuild_buttons],
      [_sync_button_state], [_on_tags_changed], over an explicit model of
      the mirror file [tags.txt].

    Python integers are unbounded, so coordinates are in [Z].  Python
    strings are sequences of Unicode code points, so a label is a list of
    code points.  Python exceptions are an explicit result type. *)

From Stdlib Require Import ZArith Lia Bool Ascii String.
From stdpp Require Import base numbers list.

Local Open Scope Z_scope.

(** ** Python results *)

Inductive PyExc : Type :=
  | IndexError
  | OSError
  | UnicodeError.

Inductive result (A : Type) : Type :=
  | Ok (a : A)
  | Raise (e : PyExc).

Arguments Ok {A} a.
Arguments Raise {A} e.

#[global] Instance result_ret : MRet result := fun A a => Ok a.

#[global] Instance result_bind : MBind result := fun A B k r =>
  match r with
  | Ok a => k a
  | Raise e => Raise e
  end.

(** Python's [l[i]]: a negative index counts from the end, and an index
    outside [-len, len) raises [IndexError]. *)
Definition py_getitem {A : Type} (l : list A) (i : Z) : result A :=
  let n := Z.of_nat (length l) in
  let j := if i <? 0 then i + n else i in
  if (0 <=? j) && (j <? n) then
    match l !! Z.to_nat j with
    | Some a => Ok a
    | None => Raise IndexError
    end
  else Raise IndexError.

(** Python's [l.pop(i)]: same indexing; the element leaves the list. *)
Definition py_pop {A : Type} (l : list A) (i : Z) : result (A * list A) :=
  let n := Z.of_nat (length l) in
  let j := if i <? 0 then i + n else i in
  if (0 <=? j) && (j <? n) then
    match l !! Z.to_nat j with
    | Some a => Ok (a, delete (Z.to_nat j) l)
    | None => Raise IndexError
    end
  else Raise IndexError.

(** ** Qt geometry (PyQt5.QtCore)

    Qt stores a rectangle as its two corner pixels [(x1, y1)] and
    [(x2, y2)], both inside the rectangle.  [QRect(x, y, w, h)] therefore
    has [x2 = x + w - 1], and [right()] returns [x2]: the column of the
    last pixel, [left() + width() - 1], not [x() + width()]. *)

Record QSize : Type := mkQSize { width : Z; height : Z }.

Record QPoint : Type := mkQPoint { px : Z; py : Z }.

Record QRect : Type := mkQRect { x1 : Z; y1 : Z; x2 : Z; y2 : Z }.

(** [QRect(x, y, w, h)] *)
Definition QRect_xywh (x y w h : Z) : QRect :=
  mkQRect x y (x + w - 1) (y + h - 1).

(** [QRect(topLeft, size)] *)
Definition QRect_ps (p : QPoint) (s : QSize) : QRect :=
  mkQRect (px p) (py p) (px p + width s - 1) (py p + height s - 1).

Definition rect_x (r : QRect) : Z := x1 r.
Definition rect_y (r : QRect) : Z := y1 r.
Definition rect_right (r : QRect) : Z := x2 r.
Definition rect_width (r : QRect) : Z := x2 r - x1 r + 1.
Definition rect_height (r : QRect) : Z := y2 r - y1 r + 1.
Definition rect_topLeft (r : QRect) : QPoint := mkQPoint (x1 r) (y1 r).
Definition rect_size (r : QRect) : QSize :=
  mkQSize (rect_width r) (rect_height r).

(** ** Layout items

    An item of the layout has a preferred size, which the layout reads
    through [sizeHint()], and a geometry: the rectangle last handed to its
    [setGeometry].  The preferred size of an item does not depend on the
    rectangle it was given. *)

Record QLayoutItem : Type := mkItem {
  sizeHint : QSize;
  geometry : QRect
}.

Definition item_setGeometry (item : QLayoutItem) (r : QRect) : QLayoutItem :=
  {| sizeHint := sizeHint item; geometry := r |}.

(** ** FlowLayout *)

Module FlowLayout.

(** The object state: [itemList], and the margin and spacing that
    [__init__] hands to Qt. *)
Record t : Type := mk {
  itemList : list QLayoutItem;
  margin : Z;
  spacing : Z
}.

Definition with_items (self : t) (l : list QLayoutItem) : t :=
  {| itemList := l; margin := margin self; spacing := spacing self |}.

Definition __init__ (margin spacing : Z) : t :=
  {| itemList := []; margin := margin; spacing := spacing |}.

Definition addItem (self : t) (item : QLayoutItem) : t :=
  with_items self (itemList self ++ [item]).

Definition count (self : t) : Z := Z.of_nat (length (itemList self)).

(** [self.itemList[i] if 0 <= i < len(self.itemList) else None] *)
Definition itemAt (self : t) (i : Z) : result (option QLayoutItem) :=
  if (0 <=? i) && (i <? Z.of_nat (length (itemList self))) then
    item ← py_getitem (itemList self) i; Ok (Some item)
  else Ok None.

(** [self.itemList.pop(i) if 0 <= i < len(self.itemList) else None];
    the second component is the object after the call. *)
Definition takeAt (self : t) (i : Z) : result (option QLayoutItem * t) :=
  if (0 <=? i) && (i <? Z.of_nat (length (itemList self))) then
    r ← py_pop (itemList self) i; Ok (Some (fst r), with_items self (snd r))
  else Ok (None, self).

(** The loop variables [x], [y], [lineHeight] of [_doLayout]. *)
Record cursor : Type := mkCursor { cx : Z; cy : Z; lineHeight : Z }.

(** The test [x + w > rect.right() and lineHeight]; an [int] is true
    when it is not zero. *)
Definition wraps (rect : QRect) (c : cursor) (item : QLayoutItem) : bool :=
  (cx c + width (sizeHint item) >? rect_right rect)
  && negb (lineHeight c =? 0).

(** One pass through the loop body: the cursor after the item, and the
    item after the pass. *)
Definition body (rect : QRect) (testOnly : bool) (c : cursor)
    (item : QLayoutItem) : cursor * QLayoutItem :=
  let w := width (sizeHint item) in
  let h := height (sizeHint item) in
  let c1 :=
    if wraps rect c item
    then mkCursor (rect_x rect) (cy c + lineHeight c) 0
    else c in
  let item1 :=
    if negb testOnly
    then item_setGeometry item
           (QRect_ps (mkQPoint (cx c1) (cy c1)) (sizeHint item))
    else item in
  (mkCursor (cx c1 + w) (cy c1) (Z.max (lineHeight c1) h), item1).

(** [for item in self.itemList: ...] from a given cursor. *)
Fixpoint loop (rect : QRect) (testOnly : bool) (c : cursor)
    (items : list QLayoutItem) : cursor * list QLayoutItem :=
  match items with
  | [] => (c, [])
  | item :: rest =>
      let '(c1, item1) := body rect testOnly c item in
      let '(c2, rest1) := loop rect testOnly c1 rest in
      (c2, item1 :: rest1)
  end.

Definition start (rect : QRect) : cursor :=
  mkCursor (rect_x rect) (rect_y rect) 0.

(** [_doLayout(rect, testOnly)]: the object after the call and the
    returned height [y + lineHeight - rect.y()]. *)
Definition _doLayout (self : t) (rect : QRect) (testOnly : bool) : t * Z :=
  let '(c, items) := loop rect testOnly (start rect) (itemList self) in
  (with_items self items, cy c + lineHeight c - rect_y rect).

Definition heightForWidth (self : t) (w : Z) : t * Z :=
  _doLayout self (QRect_xywh 0 0 w 0) true.

Definition setGeometry (self : t) (rect : QRect) : t :=
  fst (_doLayout self rect false).

End FlowLayout.

(** ** Python strings *)

(** A [str] is a sequence of Unicode code points. *)
Definition str : Type := list N.

Definition LF : N := 10%N.
Definition CR : N := 13%N.

(** [str.isspace] on one code point: the characters of bidirectional
    type WS, B or S, or of category Zs. *)
Definition isspace (c : N) : bool :=
  ((9 <=? c) && (c <=? 13) || (28 <=? c) && (c <=? 32)
   || (c =? 133) || (c =? 160) || (c =? 5760)
   || (8192 <=? c) && (c <=? 8202)
   || (c =? 8232) || (c =? 8233) || (c =? 8239) || (c =? 8287)
   || (c =? 12288))%N.

Fixpoint lstrip (s : str) : str :=
  match s with
  | [] => []
  | c :: s' => if isspace c then lstrip s' else s
  end.

Definition rstrip (s : str) : str := reverse (lstrip (reverse s)).

(** [s.strip()] *)
Definition strip (s : str) : str := rstrip (lstrip s).

(** A string is true when it is not empty. *)
Definition truthy (s : str) : bool :=
  match s with
  | [] => false
  | _ :: _ => true
  end.

(** The UTF-8 codec refuses the surrogate code points U+D800..U+DFFF
    and whatever lies above U+10FFFF. *)
Definition encodable_char (c : N) : bool :=
  ((c <? 55296) || (57343 <? c) && (c <=? 1114111))%N.

Definition encodable (s : str) : bool := forallb encodable_char s.

(** ** The mirror file

    [tags.txt] as the text layer of [open(..., encoding="utf-8")] sees
    it.  A file of valid UTF-8 is its decoded text; [Undecodable] is a
    file whose bytes are not UTF-8.  [readable] and [writable] say
    whether [open] succeeds in the respective mode. *)

Inductive on_disk : Type :=
  | NoFile
  | Utf8 (text : str)
  | Undecodable.

Inductive linesep : Type :=
  | Posix
  | Windows.

Record filesystem : Type := mkFs {
  tags_txt : on_disk;
  readable : bool;
  writable : bool;
  os_linesep : linesep
}.

Definition with_file (fs : filesystem) (f : on_disk) : filesystem :=
  {| tags_txt := f; readable := readable fs; writable := writable fs;
     os_linesep := os_linesep fs |}.

(** [os.path.exists(self.tags_file)] *)
Definition exists_ (fs : filesystem) : bool :=
  match tags_txt fs with
  | NoFile => false
  | _ => true
  end.

(** Text written with [newline=None]: every ["\n"] becomes [os.linesep]. *)
Definition newline_out (sep : linesep) (s : str) : str :=
  match sep with
  | Posix => s
  | Windows => concat (map (fun c => if (c =? LF)%N then [CR; LF] else [c]) s)
  end.

(** Text read with [newline=None] (universal newlines): ["\r\n"] and a
    lone ["\r"] both become ["\n"]. *)
Fixpoint newline_in (s : str) : str :=
  match s with
  | [] => []
  | c :: s' =>
      if (c =? CR)%N then
        match s' with
        | d :: s'' => if (d =? LF)%N then LF :: newline_in s''
                      else LF :: newline_in s'
        | [] => [LF]
        end
      else c :: newline_in s'
  end.

(** Iterating over a text file: the lines, each with its ["\n"], the
    last one without when the text does not end in one. *)
Fixpoint readlines (s : str) : list str :=
  match s with
  | [] => []
  | c :: s' =>
      if (c =? LF)%N then [c] :: readlines s'
      else match readlines s' with
           | [] => [[c]]
           | l :: ls => (c :: l) :: ls
           end
  end.

(** [for t in tags: f.write(t + "\n")] on a file just opened for
    writing: the text that reaches the file, and whether a [write]
    raised.  A string the codec refuses raises at its own [write]; what
    was written before it is flushed when the [with] block closes the
    file. *)
Fixpoint write_all (tags : list str) : str * result unit :=
  match tags with
  | [] => ([], Ok tt)
  | t :: rest =>
      if encodable (t ++ [LF]) then
        let '(out, r) := write_all rest in ((t ++ [LF]) ++ out, r)
      else ([], Raise UnicodeError)
  end.

(** [with open(self.tags_file, "w", encoding="utf-8") as f: ...] *)
Definition write_tags (fs : filesystem) (tags : list str)
    : filesystem * result unit :=
  if writable fs then
    let '(out, r) := write_all tags in
    (with_file fs (Utf8 (newline_out (os_linesep fs) out)), r)
  else (fs, Raise OSError).

(** [with open(self.tags_file, "r", encoding="utf-8") as f:
       tags = [l.strip() for l in f if l.strip()]] *)
Definition read_tags (fs : filesystem) : result (list str) :=
  if readable fs then
    match tags_txt fs with
    | NoFile => Raise OSError
    | Undecodable => Raise UnicodeError
    | Utf8 text =>
        Ok (map strip
              (List.filter (fun l => truthy (strip l))
                           (readlines (newline_in text))))
    end
  else Raise OSError.

(** ** Host widgets *)

(** The host's preset selector: its labels and its current index
    ([-1] when nothing is selected). *)
Record QComboBox : Type := mkCombo {
  combo_items : list str;
  currentIndex : Z
}.

Definition combo_count (c : QComboBox) : Z :=
  Z.of_nat (length (combo_items c)).

(** [itemText(i)]: the empty string for an index that is not a row. *)
Definition itemText (c : QComboBox) (i : Z) : str :=
  if (0 <=? i) && (i <? combo_count c) then
    match combo_items c !! Z.to_nat i with
    | Some t => t
    | None => []
    end
  else [].

Definition currentText (c : QComboBox) : str := itemText c (currentIndex c).

(** The truth value of a combo box: PyQt5 gives [QComboBox] the method
    [__len__], which is [count()], so a selector without items is
    false. *)
Definition combo_bool (c : QComboBox) : bool := negb (combo_count c =? 0).

(** What passes the test [if self._combo]: a selector that has been
    found and has at least one item. *)
Definition truthy_combo (found : option QComboBox) : option QComboBox :=
  match found with
  | Some c => if combo_bool c then Some c else None
  | None => None
  end.

(** A button of the docker; [wid] identifies the widget object. *)
Record QPushButton : Type := mkButton {
  wid : nat;
  text : str;
  checkable : bool;
  checked : bool
}.

Definition with_checked (b : QPushButton) (v : bool) : QPushButton :=
  {| wid := wid b; text := text b; checkable := checkable b; checked := v |}.

(** [b.setChecked(v)] for a button of an exclusive [QButtonGroup] whose
    members are [bs]: nothing happens when the button is not checkable or
    already in state [v]; the checked button of an exclusive group cannot
    be unchecked; checking a button unchecks the other members. *)
Definition setChecked (bs : list QPushButton) (b : QPushButton) (v : bool)
    : list QPushButton :=
  if negb (checkable b) || eqb (checked b) v then bs
  else if negb v then bs
  else map (fun b' => with_checked b' (wid b' =? wid b)%nat) bs.

(** What the docker prints. *)
Inductive message : Type :=
  | ErrorWriting (e : PyExc)
  | ErrorReading (e : PyExc).

(** ** BrushTagSelectorDocker *)

Module BrushTagSelectorDocker.

Record t : Type := mk {
  _combo : option QComboBox;     (* the host selector, once found *)
  buttons : list QPushButton;    (* self.buttons *)
  flow : list nat;               (* widgets held by self.flow *)
  group : list nat;              (* members of self.group *)
  doomed : list nat;             (* widgets given to deleteLater *)
  fresh : nat;                   (* next widget identity *)
  fs : filesystem;               (* where self.tags_file lives *)
  stdout : list message
}.

Definition set_buttons (self : t) (bs : list QPushButton) : t :=
  {| _combo := _combo self; buttons := bs; flow := flow self;
     group := group self; doomed := doomed self; fresh := fresh self;
     fs := fs self; stdout := stdout self |}.

Definition set_fs (self : t) (f : filesystem) : t :=
  {| _combo := _combo self; buttons := buttons self; flow := flow self;
     group := group self; doomed := doomed self; fresh := fresh self;
     fs := f; stdout := stdout self |}.

Definition print (self : t) (m : message) : t :=
  {| _combo := _combo self; buttons := buttons self; flow := flow self;
     group := group self; doomed := doomed self; fresh := fresh self;
     fs := fs self; stdout := stdout self ++ [m] |}.

(** [self.flow.removeWidget(b); b.deleteLater()] *)
Definition discard (self : t) (b : QPushButton) : t :=
  {| _combo := _combo self; buttons := buttons self;
     flow := List.filter (fun w => negb (w =? wid b)%nat) (flow self);
     group := group self; doomed := doomed self ++ [wid b];
     fresh := fresh self; fs := fs self; stdout := stdout self |}.

(** [btn = QPushButton(tag); btn.setCheckable(True);
     self.group.addButton(btn); self.flow.addWidget(btn);
     self.buttons.append(btn)] *)
Definition add_button (self : t) (tag : str) : t :=
  let btn := mkButton (fresh self) tag true false in
  {| _combo := _combo self; buttons := buttons self ++ [btn];
     flow := flow self ++ [wid btn]; group := group self ++ [wid btn];
     doomed := doomed self; fresh := S (fresh self);
     fs := fs self; stdout := stdout self |}.

(** [for b in self.buttons: b.setChecked(b.text() == text)] *)
Definition _sync_button_state (self : t) (txt : str) : t :=
  set_buttons self
    (foldl (fun bs i =>
              match bs !! i with
              | Some b => setChecked bs b (bool_decide (text b = txt))
              | None => bs
              end)
           (buttons self) (seq 0 (length (buttons self)))).

(** [_sync_tags_from_krita]: [if not self._combo: return] leaves early
    for a selector that is missing or has no items; the try block catches
    every exception of the write and prints it. *)
Definition _sync_tags_from_krita (self : t) : result t :=
  match truthy_combo (_combo self) with
  | None => Ok self
  | Some combo =>
      let tags := map (itemText combo) (seqZ 0 (combo_count combo)) in
      let '(fs1, r) := write_tags (fs self) tags in
      match r with
      | Ok _ => Ok (set_fs self fs1)
      | Raise e => Ok (print (set_fs self fs1) (ErrorWriting e))
      end
  end.

(** [_rebuild_buttons] *)
Definition _rebuild_buttons (self : t) : result t :=
  let self1 := foldl discard self (buttons self) in
  let self2 := set_buttons self1 [] in
  if negb (exists_ (fs self2)) then Ok self2
  else
    match read_tags (fs self2) with
    | Raise e => Ok (print self2 (ErrorReading e))
    | Ok tags =>
        let self3 := foldl add_button self2 tags in
        match truthy_combo (_combo self3) with
        | Some combo => Ok (_sync_button_state self3 (currentText combo))
        | None => Ok self3
        end
    end.

(** [_on_tags_changed] *)
Definition _on_tags_changed (self : t) : result t :=
  self1 ← _sync_tags_from_krita self; _rebuild_buttons self1.

(** [__init__], before the timer fires. *)
Definition __init__ (f : filesystem) : t :=
  {| _combo := None; buttons := []; flow := []; group := [];
     doomed := []; fresh := 0%nat; fs := f; stdout := [] |}.

End BrushTagSelectorDocker.

(** ** Vocabulary of the layout properties *)

Module Layout.

Import FlowLayout.

(** The loop variables when the pass for the item of index [i] starts:
    the loop has run over the first [i] items. *)
Definition cursor_before (self : t) (rect : QRect) (i : nat) : cursor :=
  fst (loop rect false (start rect) (take i (itemList self))).

(** The first [i] items as the loop has left them at that moment. *)
Definition placed_before (self : t) (rect : QRect) (i : nat)
    : list QLayoutItem :=
  snd (loop rect false (start rect) (take i (itemList self))).

(** The items already placed on the current row: those whose geometry
    carries the running [y]. *)
Definition on_current_row (self : t) (rect : QRect) (i : nat)
    : list QLayoutItem :=
  List.filter (fun it => y1 (geometry it) =? cy (cursor_before self rect i))
              (placed_before self rect i).

(** The items as a committing layout pass leaves them. *)
Definition arranged (self : t) (rect : QRect) : list QLayoutItem :=
  itemList (fst (_doLayout self rect false)).

Definition nonneg_sizes (self : t) : Prop :=
  Forall (fun it => 0 <= width (sizeHint it) /\ 0 <= height (sizeHint it))
         (itemList self).

Fixpoint total_width (items : list QLayoutItem) : Z :=
  match items with
  | [] => 0
  | it :: rest => width (sizeHint it) + total_width rest
  end.

(** The placement rule in the words of the specification: the item stays
    on the row when the running x plus its width does not exceed
    [originX + W], and otherwise opens a row at [originX], one line
    height further down. *)
Definition stated_position (rect : QRect) (c : cursor) (item : QLayoutItem)
    : QPoint :=
  if cx c + width (sizeHint item) <=? rect_x rect + rect_width rect
  then mkQPoint (cx c) (cy c)
  else mkQPoint (rect_x rect) (cy c + lineHeight c).

Definition stated_rule (self : t) (rect : QRect) : Prop :=
  forall (i : nat) (item : QLayoutItem),
    itemList self !! i = Some item ->
    arranged self rect !! i =
      Some (item_setGeometry item
              (QRect_ps (stated_position rect (cursor_before self rect i) item)
                        (sizeHint item))).

(** All items on the row of the origin, left to right. *)
Definition single_row (self : t) (rect : QRect) : Prop :=
  (forall i it, arranged self rect !! i = Some it ->
                y1 (geometry it) = rect_y rect)
  /\ map sizeHint (arranged self rect) = map sizeHint (itemList self)
  /\ (forall i j a b,
         (i <= j)%nat ->
         arranged self rect !! i = Some a ->
         arranged self rect !! j = Some b ->
         x1 (geometry a) <= x1 (geometry b)).

(** No item is wider than the container. *)
Definition widest_fits (self : t) (rect : QRect) : Prop :=
  Forall (fun it => width (sizeHint it) <= rect_width rect) (itemList self).

(** The guard [lineHeight > 0] read as "the current row is not empty". *)
Definition stated_guard (self : t) (rect : QRect) : Prop :=
  forall i : nat,
    (i <= length (itemList self))%nat ->
    (0 < lineHeight (cursor_before self rect i)
     <-> on_current_row self rect i <> []).

(** What the loop maintains when heights are not negative: the line
    height is not negative, nothing placed lies below the running [y],
    and the line height is positive exactly when something of positive
    height sits at the running [y]. *)
Definition row_invariant (c : cursor) (placed : list QLayoutItem) : Prop :=
  0 <= lineHeight c
  /\ (forall it, In it placed -> y1 (geometry it) <= cy c)
  /\ (0 < lineHeight c <->
      exists it, In it placed /\ y1 (geometry it) = cy c
                 /\ 0 < height (sizeHint it)).

(** An item of preferred size [(w, h)] that has no geometry yet (Qt's
    null rectangle), and a layout made of such items. *)
Definition item_of_size (w h : Z) : QLayoutItem :=
  mkItem (mkQSize w h) (mkQRect 0 0 (-1) (-1)).

Definition layout_of (sizes : list (Z * Z)) : t :=
  {| itemList := map (fun s => item_of_size (fst s) (snd s)) sizes;
     margin := 0; spacing := 3 |}.

(** Where the items are after a committing pass: the top-left corners. *)
Definition positions (self : t) (rect : QRect) : list (Z * Z) :=
  map (fun it => (x1 (geometry it), y1 (geometry it))) (arranged self rect).

End Layout.

(** ** Vocabulary of the mirror-file properties *)

Module Mirror.

Import BrushTagSelectorDocker.

(** The labels the docker reads from the host selector. *)
Definition host_labels (c : QComboBox) : list str :=
  map (itemText c) (seqZ 0 (combo_count c)).

(** The labels on the buttons, in order. *)
Definition button_labels (d : t) : list str :=
  map text (buttons d).

(** A label that goes to the file as one line: no line break inside, and
    nothing the codec refuses. *)
Definition one_line (s : str) : Prop :=
  Forall (fun c => c <> LF /\ c <> CR) s /\ encodable s = true.

(** A label that is not empty and has no white space at either end. *)
Definition trimmed (s : str) : Prop :=
  s <> []
  /\ (forall c, head s = Some c -> isspace c = false)
  /\ (forall c, last s = Some c -> isspace c = false).

(** The docker after [_sync_tags_from_krita] and then [_rebuild_buttons],
    as [_initialize] and [_on_tags_changed] run them. *)
Definition write_then_read (d : t) : result t :=
  _on_tags_changed d.

(** The round trip in the words of the specification: the buttons carry
    exactly the labels of the host selector. *)
Definition stated_round_trip (d : t) (c : QComboBox) : Prop :=
  _combo d = Some c ->
  exists d', write_then_read d = Ok d' /\ button_labels d' = combo_items c.

(** A docker that has found the selector [c], has no buttons yet, and
    whose directory holds no mirror file and allows reading and writing. *)
Definition fresh_docker (c : QComboBox) : t :=
  {| _combo := Some c; buttons := []; flow := [];
     group := []; doomed := []; fresh := 0%nat;
     fs := mkFs NoFile true true Posix; stdout := [] |}.

(** A label written in ASCII. *)
Definition label (s : string) : str :=
  map (fun a => N_of_ascii a) (list_ascii_of_string s).

(** Reading the mirror file fails: [open] or the decoder raises. *)
Definition read_fails (f : filesystem) : Prop :=
  exists e, read_tags f = Raise e.

End Mirror.

(** ** The size of the layout *)

(** [QSize()] is the invalid size [(-1, -1)]; [a.expandedTo(b)] takes the
    larger width and the larger height. *)
Definition QSize_null : QSize := mkQSize (-1) (-1).

Definition expandedTo (a b : QSize) : QSize :=
  mkQSize (Z.max (width a) (width b)) (Z.max (height a) (height b)).

Module FlowLayoutSize.

Section MinimumSizes.

(** [item.minimumSize()], which Qt computes from the widget behind the
    item. *)
Variable item_minimumSize : QLayoutItem -> QSize.

(** [minimumSize]: [size = QSize()], then
    [size = size.expandedTo(item.minimumSize())] for each item. *)
Definition minimumSize (self : FlowLayout.t) : QSize :=
  foldl (fun size item => expandedTo size (item_minimumSize item))
        QSize_null (FlowLayout.itemList self).

(** [sizeHint] of the layout: [return self.minimumSize()] *)
Definition sizeHint (self : FlowLayout.t) : QSize := minimumSize self.

End MinimumSizes.

Definition hasHeightForWidth (self : FlowLayout.t) : bool := true.

End FlowLayoutSize.

(** ** Vocabulary of the row properties *)

Module Rows.

Import FlowLayout.

Fixpoint total_height (items : list QLayoutItem) : Z :=
  match items with
  | [] => 0
  | it :: rest => height (sizeHint it) + total_height rest
  end.

(** The height of the tallest item, 0 for no items. *)
Fixpoint tallest (items : list QLayoutItem) : Z :=
  match items with
  | [] => 0
  | it :: rest => Z.max (height (sizeHint it)) (tallest rest)
  end.

Definition nonneg_heights (items : list QLayoutItem) : Prop :=
  Forall (fun it => 0 <= height (sizeHint it)) items.

Definition nonneg_widths (items : list QLayoutItem) : Prop :=
  Forall (fun it => 0 <= width (sizeHint it)) items.

Definition positive_heights (items : list QLayoutItem) : Prop :=
  Forall (fun it => 0 < height (sizeHint it)) items.

(** [a] lies clear of a later item [b]: on the same row and ending left
    of where [b] starts, or on a row that ends above the row of [b].
    Qt's [x2] and [y2] are the last column and the last line of a
    rectangle. *)
Definition clear_of (a b : QLayoutItem) : Prop :=
  (y1 (geometry a) = y1 (geometry b) /\ x2 (geometry a) < x1 (geometry b))
  \/ y2 (geometry a) < y1 (geometry b).

(** The cursor has moved past a placed item: still on its row, to the
    right of it, with a line at least as high; or on a later row. *)
Definition past (a : QLayoutItem) (c : cursor) : Prop :=
  0 <= lineHeight c
  /\ ((cy c = y1 (geometry a) /\ x2 (geometry a) < cx c
       /\ y2 (geometry a) < cy c + lineHeight c)
      \/ y2 (geometry a) < cy c).

(** A cursor and its copy moved by [(dx, dy)]. *)
Definition shifted (dx dy : Z) (c c' : cursor) : Prop :=
  cx c' = cx c + dx /\ cy c' = cy c + dy /\ lineHeight c' = lineHeight c.

(** The height used so far lies between the tallest item and the sum of
    the heights of the items seen; the cursor has not moved above the
    origin. *)
Definition height_bounds (rect : QRect) (seen : list QLayoutItem)
    (c : cursor) : Prop :=
  rect_y rect <= cy c
  /\ 0 <= lineHeight c
  /\ tallest seen <= cy c + lineHeight c - rect_y rect
  /\ cy c + lineHeight c - rect_y rect <= total_height seen.

(** The cursor stands at the left margin, or the row already has a
    line height. *)
Definition margin_or_line (rect : QRect) (c : cursor) : Prop :=
  rect_x rect <= cx c /\ (0 < lineHeight c \/ cx c = rect_x rect).

(** Every item is at least as wide as the container, and has a positive
    height. *)
Definition too_wide_for_two (rect : QRect) (items : list QLayoutItem) : Prop :=
  Forall (fun it => rect_width rect <= width (sizeHint it)
                    /\ 0 <= width (sizeHint it)
                    /\ 0 < height (sizeHint it)) items.

(** The cursor while such items are stacked: the rows so far are as high
    as the items seen together, and after the first item the cursor is
    past the right edge on a row with a line height. *)
Definition stacking (rect : QRect) (seen : list QLayoutItem) (c : cursor)
    : Prop :=
  cy c + lineHeight c = rect_y rect + total_height seen
  /\ ((lineHeight c = 0 /\ seen = [])
      \/ (0 < lineHeight c /\ rect_x rect + rect_width rect <= cx c)).

End Rows.

(** ** Buttons and selector in step *)

Module Selection.

Import BrushTagSelectorDocker.

(** The docker together with its flag [self._changing]. *)
Record t : Type := mk {
  docker : BrushTagSelectorDocker.t;
  _changing : bool
}.

Definition set_changing (s : t) (v : bool) : t :=
  {| docker := docker s; _changing := v |}.

Definition set_combo (d : BrushTagSelectorDocker.t) (c : QComboBox)
    : BrushTagSelectorDocker.t :=
  {| _combo := Some c; buttons := buttons d; flow := flow d;
     group := group d; doomed := doomed d; fresh := fresh d;
     fs := fs d; stdout := stdout d |}.

(** [combo.setCurrentIndex(i)]: an index that is not a row selects
    nothing ([-1]); when the current index changes, the combo box emits
    [currentIndexChanged] with the new current text. *)
Definition setCurrentIndex (c : QComboBox) (i : Z) : QComboBox * option str :=
  let j := if (0 <=? i) && (i <? combo_count c) then i else -1 in
  if j =? currentIndex c then (c, None)
  else (mkCombo (combo_items c) j,
        Some (itemText (mkCombo (combo_items c) j) j)).

(** [_on_combo_changed] *)
Definition _on_combo_changed (s : t) (txt : str) : t :=
  if _changing s then s
  else {| docker := _sync_button_state (docker s) txt;
          _changing := _changing s |}.

(** The first [i] in [range(self._combo.count())] with
    [self._combo.itemText(i) == btn.text()]. *)
Definition row_of (c : QComboBox) (btn : QPushButton) : option Z :=
  List.find (fun i => bool_decide (itemText c i = text btn))
            (seqZ 0 (combo_count c)).

(** [_on_button_clicked]: the flag is raised around [setCurrentIndex],
    whose signal reaches [_on_combo_changed] before it returns. *)
Definition _on_button_clicked (s : t) (btn : QPushButton) : t :=
  match truthy_combo (_combo (docker s)) with
  | None => s
  | Some combo =>
      match row_of combo btn with
      | None => s
      | Some i =>
          let s1 := set_changing s true in
          let '(combo1, emitted) := setCurrentIndex combo i in
          let s2 := {| docker := set_combo (docker s1) combo1;
                       _changing := _changing s1 |} in
          let s3 := match emitted with
                    | Some txt => _on_combo_changed s2 txt
                    | None => s2
                    end in
          set_changing s3 false
      end
  end.

(** One round of the loop of [_sync_button_state], for the button at
    index [i] of the list as it is by then. *)
Definition check_matching (txt : str) (bs : list QPushButton) (i : nat)
    : list QPushButton :=
  match bs !! i with
  | Some b => setChecked bs b (bool_decide (text b = txt))
  | None => bs
  end.

(** At most one button is checked. *)
Definition at_most_one_checked (bs : list QPushButton) : Prop :=
  forall i j a b,
    bs !! i = Some a -> bs !! j = Some b ->
    checked a = true -> checked b = true -> i = j.

(** The docker's own widgets are in order: the flow layout holds exactly
    the buttons, in order; the buttons are distinct widgets, older than
    the next widget to be made, checkable, and at most one is checked. *)
Definition well_formed (d : BrushTagSelectorDocker.t) : Prop :=
  flow d = map wid (buttons d)
  /\ NoDup (map wid (buttons d))
  /\ Forall (fun b => (wid b < fresh d)%nat /\ checkable b = true) (buttons d)
  /\ at_most_one_checked (buttons d).

(** What the mirror file gives to read: its labels, or nothing when it is
    missing or cannot be read. *)
Definition labels_on_file (f : filesystem) : list str :=
  if exists_ f then
    match read_tags f with
    | Ok tags => tags
    | Raise _ => []
    end
  else [].

End Selection.

(** * Properties of the flow layout *)

Section LoopFacts.

Import FlowLayout.

Variable rect : QRect.

Lemma loop_cons (testOnly : bool) (c : cursor) (item : QLayoutItem)
    (rest : list QLayoutItem) :
  loop rect testOnly c (item :: rest) =
    (fst (loop rect testOnly (fst (body rect testOnly c item)) rest),
     snd (body rect testOnly c item)
       :: snd (loop rect testOnly (fst (body rect testOnly c item)) rest)).
Proof.
  cbn [loop].
  destruct (body rect testOnly c item) as [c1 item1]; cbn [fst snd].
  destruct (loop rect testOnly c1 rest) as [c2 rest1]; reflexivity.
Qed.

(** The loop over a concatenation runs the second part from the cursor
    the first part ends with. *)
Lemma loop_app (testOnly : bool) (a b : list QLayoutItem) :
  forall c : cursor,
    loop rect testOnly c (a ++ b) =
      (fst (loop rect testOnly (fst (loop rect testOnly c a)) b),
       snd (loop rect testOnly c a)
         ++ snd (loop rect testOnly (fst (loop rect testOnly c a)) b)).
Proof.
  induction a as [|item a IH]; intros c.
  - cbn [loop app fst snd].
    destruct (loop rect testOnly c b); reflexivity.
  - rewrite <- app_comm_cons, !loop_cons, IH; reflexivity.
Qed.

(** The size hints are not touched by either mode. *)
Lemma body_sizeHint (testOnly : bool) (c : cursor) (item : QLayoutItem) :
  sizeHint (snd (body rect testOnly c item)) = sizeHint item.
Proof. unfold body; destruct testOnly; reflexivity. Qed.

(** The cursor does not depend on the mode. *)
Lemma body_cursor_mode (c : cursor) (item : QLayoutItem) :
  fst (body rect true c item) = fst (body rect false c item).
Proof. reflexivity. Qed.

Lemma loop_cursor_mode (items : list QLayoutItem) :
  forall c : cursor,
    fst (loop rect true c items) = fst (loop rect false c items).
Proof.
  induction items as [|item rest IH]; intros c; [reflexivity|].
  rewrite !loop_cons; cbn [fst]; rewrite body_cursor_mode; apply IH.
Qed.

(** Measuring returns the items as they were. *)
Lemma loop_measure_items (items : list QLayoutItem) :
  forall c : cursor, snd (loop rect true c items) = items.
Proof.
  induction items as [|item rest IH]; intros c; [reflexivity|].
  rewrite loop_cons; cbn [snd]; rewrite IH; reflexivity.
Qed.

(** The item of index [i] leaves the loop as the body leaves it from the
    cursor reached after the first [i] items. *)
Lemma loop_lookup (testOnly : bool) (items : list QLayoutItem) :
  forall (c : cursor) (i : nat) (item : QLayoutItem),
    items !! i = Some item ->
    snd (loop rect testOnly c items) !! i =
      Some (snd (body rect testOnly
                   (fst (loop rect testOnly c (take i items))) item)).
Proof.
  induction items as [|a rest IH]; intros c i item Hi; [discriminate|].
  destruct i as [|i].
  - injection Hi as ->. rewrite loop_cons; reflexivity.
  - rewrite loop_cons. cbn [snd take]. rewrite loop_cons. cbn [fst].
    apply (IH _ i item Hi).
Qed.

Lemma loop_snoc (testOnly : bool) (items : list QLayoutItem)
    (item : QLayoutItem) (c : cursor) :
  loop rect testOnly c (items ++ [item]) =
    (fst (body rect testOnly (fst (loop rect testOnly c items)) item),
     snd (loop rect testOnly c items)
       ++ [snd (body rect testOnly (fst (loop rect testOnly c items)) item)]).
Proof. rewrite loop_app, loop_cons; reflexivity. Qed.

End LoopFacts.

Lemma with_items_id (self : FlowLayout.t) :
  FlowLayout.with_items self (FlowLayout.itemList self) = self.
Proof. destruct self; reflexivity. Qed.

Lemma doLayout_unfold (self : FlowLayout.t) (rect : QRect) (testOnly : bool) :
  FlowLayout._doLayout self rect testOnly =
    (FlowLayout.with_items self
       (snd (FlowLayout.loop rect testOnly (FlowLayout.start rect)
               (FlowLayout.itemList self))),
     FlowLayout.cy (fst (FlowLayout.loop rect testOnly (FlowLayout.start rect)
                           (FlowLayout.itemList self)))
     + FlowLayout.lineHeight
         (fst (FlowLayout.loop rect testOnly (FlowLayout.start rect)
                 (FlowLayout.itemList self)))
     - rect_y rect).
Proof.
  unfold FlowLayout._doLayout.
  destruct (FlowLayout.loop rect testOnly (FlowLayout.start rect)
              (FlowLayout.itemList self)); reflexivity.
Qed.

(** ** Measure mode and commit mode *)

(** C4: the height returned in measure mode is the value
    [y + lineHeight - rect.y()] that the commit-mode loop ends with on the
    same layout and rectangle, so the returned height does not depend on
    [testOnly]. *)
Theorem measure_height_is_commit_height (self : FlowLayout.t) (rect : QRect) :
  snd (FlowLayout._doLayout self rect true) =
    FlowLayout.cy
      (Layout.cursor_before self rect (length (FlowLayout.itemList self)))
    + FlowLayout.lineHeight
        (Layout.cursor_before self rect (length (FlowLayout.itemList self)))
    - rect_y rect
  /\ snd (FlowLayout._doLayout self rect true) =
       snd (FlowLayout._doLayout self rect false).
Proof.
  unfold Layout.cursor_before.
  rewrite firstn_all, !doLayout_unfold; cbn [snd].
  rewrite loop_cursor_mode; split; reflexivity.
Qed.

(** C7: a measure-mode pass leaves the layout and every item in it as
    they were, geometry included; so does [heightForWidth], which is such
    a pass. *)
Theorem measure_mode_changes_nothing (self : FlowLayout.t) (rect : QRect) :
  fst (FlowLayout._doLayout self rect true) = self
  /\ (forall w : Z, fst (FlowLayout.heightForWidth self w) = self)
  /\ map geometry
       (FlowLayout.itemList (fst (FlowLayout._doLayout self rect true)))
     = map geometry (FlowLayout.itemList self).
Proof.
  assert (H : forall r, fst (FlowLayout._doLayout self r true) = self).
  { intros r. rewrite doLayout_unfold; cbn [fst].
    rewrite loop_measure_items. apply with_items_id. }
  split; [apply H|]. split.
  - intros w. unfold FlowLayout.heightForWidth. apply H.
  - rewrite H; reflexivity.
Qed.

(** ** Single items *)

(** C5: a layout of one item wider than the container puts that item at
    the origin of the rectangle with its full preferred size, and returns
    the item's height. *)
Theorem single_wide_item_kept_whole (self : FlowLayout.t) (rect : QRect)
    (item : QLayoutItem) :
  FlowLayout.itemList self = [item] ->
  rect_width rect < width (sizeHint item) ->
  0 <= height (sizeHint item) ->
  FlowLayout._doLayout self rect false =
    (FlowLayout.with_items self
       [item_setGeometry item
          (QRect_ps (mkQPoint (rect_x rect) (rect_y rect)) (sizeHint item))],
     height (sizeHint item))
  /\ rect_topLeft (geometry (item_setGeometry item
          (QRect_ps (mkQPoint (rect_x rect) (rect_y rect)) (sizeHint item))))
       = mkQPoint (rect_x rect) (rect_y rect)
  /\ rect_size (geometry (item_setGeometry item
          (QRect_ps (mkQPoint (rect_x rect) (rect_y rect)) (sizeHint item))))
       = sizeHint item.
Proof.
  intros Hl _ Hh. split; [|split].
  - rewrite doLayout_unfold, Hl, loop_cons.
    cbn [FlowLayout.loop fst snd].
    unfold FlowLayout.body, FlowLayout.wraps, FlowLayout.start.
    cbn [FlowLayout.lineHeight FlowLayout.cx FlowLayout.cy].
    rewrite Z.eqb_refl, andb_false_r.
    cbn [negb fst snd FlowLayout.lineHeight FlowLayout.cx FlowLayout.cy].
    f_equal. rewrite Z.max_r by lia. lia.
  - reflexivity.
  - unfold rect_size, rect_width, rect_height, QRect_ps; cbn.
    destruct (sizeHint item) as [w h]; cbn. f_equal; lia.
Qed.

Lemma single_wide_item_kept_whole_witness :
  FlowLayout._doLayout (Layout.layout_of [(200, 30)]) (QRect_xywh 0 0 100 0)
    false
  = (FlowLayout.with_items (Layout.layout_of [(200, 30)])
       [mkItem (mkQSize 200 30) (mkQRect 0 0 199 29)], 30).
Proof.
  apply (single_wide_item_kept_whole (Layout.layout_of [(200, 30)])
           (QRect_xywh 0 0 100 0) (Layout.item_of_size 200 30)).
  - reflexivity.
  - vm_compute; reflexivity.
  - vm_compute; discriminate.
Defined.

(** ** The three-item scenario *)

(** C2, as the specification has it: the returned height would be 40.
    It is not: the third item, of width 40, starts at x = 60, and
    [60 + 40 = 100] is greater than [rect.right()], which is 99 for a
    rectangle of width 100 at x = 0; so the third item opens a third
    row. *)
Lemma scenario_height_is_not_40 :
  snd (FlowLayout._doLayout (Layout.layout_of [(50, 20); (60, 20); (40, 20)])
         (QRect_xywh 0 0 100 0) false) <> 40.
Proof. vm_compute. discriminate. Qed.

(** C2, amended: items [(50,20), (60,20), (40,20)] in a container of width
    100 at the origin are placed at (0,0), (0,20) and (0,40), and the
    returned height is 60, in commit mode and in measure mode; whatever
    the height of the container and the geometry the items had before. *)
Theorem scenario_three_rows (g0 g1 g2 : QRect) (m s hh : Z) :
  let self :=
    FlowLayout.mk [mkItem (mkQSize 50 20) g0; mkItem (mkQSize 60 20) g1;
                   mkItem (mkQSize 40 20) g2] m s in
  let rect := QRect_xywh 0 0 100 hh in
  rect_right rect = 99
  /\ Layout.positions self rect = [(0, 0); (0, 20); (0, 40)]
  /\ snd (FlowLayout._doLayout self rect false) = 60
  /\ snd (FlowLayout._doLayout self rect true) = 60.
Proof. repeat split. Qed.

(** ** Access by index *)

Section Indexing.

Context {A : Type}.

Lemma py_getitem_in_range (l : list A) (i : Z) (a : A) :
  0 <= i ->
  l !! Z.to_nat i = Some a ->
  py_getitem l i = Ok a.
Proof.
  intros Hi Ha. unfold py_getitem.
  assert (Hlt : (Z.to_nat i < length l)%nat) by (eapply lookup_lt_Some; eauto).
  destruct (Z.ltb_spec i 0) as [?|_]; [lia|].
  destruct (Z.leb_spec 0 i) as [_|?]; [|lia].
  destruct (Z.ltb_spec i (Z.of_nat (length l))) as [_|?]; [|lia].
  cbn [andb]. rewrite Ha. reflexivity.
Qed.

Lemma py_pop_in_range (l : list A) (i : Z) (a : A) :
  0 <= i ->
  l !! Z.to_nat i = Some a ->
  py_pop l i = Ok (a, delete (Z.to_nat i) l).
Proof.
  intros Hi Ha. unfold py_pop.
  assert (Hlt : (Z.to_nat i < length l)%nat) by (eapply lookup_lt_Some; eauto).
  destruct (Z.ltb_spec i 0) as [?|_]; [lia|].
  destruct (Z.leb_spec 0 i) as [_|?]; [|lia].
  destruct (Z.ltb_spec i (Z.of_nat (length l))) as [_|?]; [|lia].
  cbn [andb]. rewrite Ha. reflexivity.
Qed.

End Indexing.

(** C10: for an index outside [0, count()), [itemAt] and [takeAt] return
    [None] without raising, and [takeAt] leaves the layout as it was; for
    an index inside, [itemAt] returns the item at that index and [takeAt]
    returns it and leaves the list without it (the items before and after
    it, in order). *)
Theorem itemAt_takeAt_by_range (self : FlowLayout.t) (i : Z) :
  (~ (0 <= i < FlowLayout.count self) ->
     FlowLayout.itemAt self i = Ok None
     /\ FlowLayout.takeAt self i = Ok (None, self))
  /\ (0 <= i < FlowLayout.count self ->
      exists item : QLayoutItem,
        FlowLayout.itemList self !! Z.to_nat i = Some item
        /\ FlowLayout.itemAt self i = Ok (Some item)
        /\ FlowLayout.takeAt self i =
             Ok (Some item,
                 FlowLayout.with_items self
                   (take (Z.to_nat i) (FlowLayout.itemList self)
                    ++ drop (S (Z.to_nat i)) (FlowLayout.itemList self)))).
Proof.
  unfold FlowLayout.count, FlowLayout.itemAt, FlowLayout.takeAt. split.
  - intros Hout.
    destruct (Z.leb_spec 0 i) as [H0|H0];
      destruct (Z.ltb_spec i (Z.of_nat (length (FlowLayout.itemList self))))
        as [H1|H1]; cbn [andb]; try (split; reflexivity).
    exfalso; apply Hout; lia.
  - intros [H0 H1].
    destruct (lookup_lt_is_Some_2 (FlowLayout.itemList self) (Z.to_nat i))
      as [item Hitem]; [lia|].
    exists item. split; [exact Hitem|].
    destruct (Z.leb_spec 0 i) as [_|?]; [|lia].
    destruct (Z.ltb_spec i (Z.of_nat (length (FlowLayout.itemList self))))
      as [_|?]; [|lia].
    cbn [andb].
    rewrite (py_getitem_in_range _ _ _ H0 Hitem).
    rewrite (py_pop_in_range _ _ _ H0 Hitem).
    cbn. rewrite delete_take_drop. split; reflexivity.
Qed.

Lemma itemAt_takeAt_by_range_witness :
  (FlowLayout.itemAt (Layout.layout_of [(50, 20); (60, 20)]) 2 = Ok None
   /\ FlowLayout.takeAt (Layout.layout_of [(50, 20); (60, 20)]) (-1) =
        Ok (None, Layout.layout_of [(50, 20); (60, 20)]))
  /\ FlowLayout.takeAt (Layout.layout_of [(50, 20); (60, 20)]) 0 =
       Ok (Some (Layout.item_of_size 50 20), Layout.layout_of [(60, 20)]).
Proof.
  split; [split|].
  - apply (itemAt_takeAt_by_range (Layout.layout_of [(50, 20); (60, 20)]) 2).
    vm_compute. intros [_ H]; discriminate H.
  - apply (itemAt_takeAt_by_range (Layout.layout_of [(50, 20); (60, 20)]) (-1)).
    vm_compute. intros [H _]; apply H; reflexivity.
  - destruct (itemAt_takeAt_by_range (Layout.layout_of [(50, 20); (60, 20)]) 0)
      as [_ H].
    destruct H as (item & Hitem & _ & Htake).
    + vm_compute; split; [discriminate | reflexivity].
    + injection Hitem as <-. exact Htake.
Defined.

(** ** The placement rule *)

Lemma right_is_last_column (rect : QRect) :
  rect_right rect = rect_x rect + rect_width rect - 1.
Proof. unfold rect_right, rect_x, rect_width; lia. Qed.

Lemma cursor_before_0 (self : FlowLayout.t) (rect : QRect) :
  Layout.cursor_before self rect 0 = FlowLayout.start rect.
Proof. reflexivity. Qed.

(** The cursor moves from one pass to the next as the body says. *)
Lemma cursor_before_S (self : FlowLayout.t) (rect : QRect) (i : nat)
    (item : QLayoutItem) :
  FlowLayout.itemList self !! i = Some item ->
  Layout.cursor_before self rect (S i) =
    fst (FlowLayout.body rect false (Layout.cursor_before self rect i) item).
Proof.
  intros Hi. unfold Layout.cursor_before.
  rewrite (take_S_r _ _ _ Hi), loop_snoc. reflexivity.
Qed.

Lemma arranged_lookup (self : FlowLayout.t) (rect : QRect) (i : nat)
    (item : QLayoutItem) :
  FlowLayout.itemList self !! i = Some item ->
  Layout.arranged self rect !! i =
    Some (snd (FlowLayout.body rect false
                 (Layout.cursor_before self rect i) item)).
Proof.
  intros Hi. unfold Layout.arranged, Layout.cursor_before.
  rewrite doLayout_unfold; cbn [fst FlowLayout.with_items FlowLayout.itemList].
  apply loop_lookup, Hi.
Qed.

(** The running offsets in terms of what was placed: after an item they
    are its left edge plus its width, its top edge, and the greater of
    its height and the line height the item was placed with (zero on a
    new row). *)
Lemma running_offsets (self : FlowLayout.t) (rect : QRect) (i : nat)
    (item placed : QLayoutItem) :
  FlowLayout.itemList self !! i = Some item ->
  Layout.arranged self rect !! i = Some placed ->
  let c := Layout.cursor_before self rect i in
  let c' := Layout.cursor_before self rect (S i) in
  FlowLayout.cx c' = x1 (geometry placed) + width (sizeHint item)
  /\ FlowLayout.cy c' = y1 (geometry placed)
  /\ FlowLayout.lineHeight c' =
       Z.max (if FlowLayout.wraps rect c item then 0
              else FlowLayout.lineHeight c)
             (height (sizeHint item)).
Proof.
  intros Hi Hp c c'. subst c'.
  rewrite (arranged_lookup _ _ _ _ Hi) in Hp. injection Hp as <-.
  rewrite (cursor_before_S _ _ _ _ Hi). fold c.
  unfold FlowLayout.body. destruct (FlowLayout.wraps rect c item);
    repeat split.
Qed.

(** C1, as the specification has it, fails twice over.  Two items of
    width 50 in a container of width 100: the second ends exactly at
    [originX + W] and still wraps.  An item of height 0 followed by
    another: the row has content, the second item does not fit, and it
    stays on the row because [lineHeight] is 0. *)
Lemma stated_rule_fails :
  ~ Layout.stated_rule (Layout.layout_of [(50, 20); (50, 20)])
      (QRect_xywh 0 0 100 0)
  /\ ~ Layout.stated_rule (Layout.layout_of [(60, 0); (60, 10)])
         (QRect_xywh 0 0 100 0).
Proof.
  split; intros H.
  - specialize (H 1%nat (Layout.item_of_size 50 20) eq_refl).
    vm_compute in H. discriminate H.
  - specialize (H 1%nat (Layout.item_of_size 60 10) eq_refl).
    vm_compute in H. discriminate H.
Qed.

(** C1, amended: the item of index [i], met with running offsets [x], [y]
    and line height [lineHeight], opens a new row at
    [(originX, y + lineHeight)] exactly when [x] plus its width exceeds
    [rect.right() = originX + W - 1] and [lineHeight] is not zero;
    otherwise it is placed at [(x, y)] on the current row.  Either way it
    gets its preferred size. *)
Theorem placement_rule (self : FlowLayout.t) (rect : QRect) (i : nat)
    (item : QLayoutItem) :
  FlowLayout.itemList self !! i = Some item ->
  let c := Layout.cursor_before self rect i in
  let w := width (sizeHint item) in
  (FlowLayout.cx c + w > rect_x rect + rect_width rect - 1
   /\ FlowLayout.lineHeight c <> 0 ->
   Layout.arranged self rect !! i =
     Some (item_setGeometry item
             (QRect_ps (mkQPoint (rect_x rect)
                          (FlowLayout.cy c + FlowLayout.lineHeight c))
                       (sizeHint item))))
  /\ (FlowLayout.cx c + w <= rect_x rect + rect_width rect - 1
      \/ FlowLayout.lineHeight c = 0 ->
      Layout.arranged self rect !! i =
        Some (item_setGeometry item
                (QRect_ps (mkQPoint (FlowLayout.cx c) (FlowLayout.cy c))
                          (sizeHint item)))).
Proof.
  intros Hi c w. rewrite (arranged_lookup _ _ _ _ Hi).
  fold c. unfold FlowLayout.body, FlowLayout.wraps. fold w.
  rewrite right_is_last_column. cbn [negb snd].
  split.
  - intros [Hx Hl].
    destruct (Z.gtb_spec (FlowLayout.cx c + w)
                (rect_x rect + rect_width rect - 1)) as [_|?]; [|lia].
    destruct (Z.eqb_spec (FlowLayout.lineHeight c) 0) as [?|_]; [lia|].
    reflexivity.
  - intros Hor.
    destruct (Z.gtb_spec (FlowLayout.cx c + w)
                (rect_x rect + rect_width rect - 1)) as [Hgt|Hle];
      destruct (Z.eqb_spec (FlowLayout.lineHeight c) 0) as [Hz|Hnz];
      cbn [andb negb]; try reflexivity.
    exfalso; destruct Hor; lia.
Qed.

Lemma placement_rule_witness :
  Layout.arranged (Layout.layout_of [(50, 20); (60, 20); (30, 20)])
    (QRect_xywh 0 0 100 0) !! 1%nat =
    Some (mkItem (mkQSize 60 20) (mkQRect 0 20 59 39))
  /\ Layout.arranged (Layout.layout_of [(50, 20); (60, 20); (30, 20)])
       (QRect_xywh 0 0 100 0) !! 2%nat =
       Some (mkItem (mkQSize 30 20) (mkQRect 60 20 89 39)).
Proof.
  split.
  - apply (placement_rule (Layout.layout_of [(50, 20); (60, 20); (30, 20)])
             (QRect_xywh 0 0 100 0) 1%nat (Layout.item_of_size 60 20) eq_refl).
    vm_compute. split; [reflexivity | discriminate].
  - apply (placement_rule (Layout.layout_of [(50, 20); (60, 20); (30, 20)])
             (QRect_xywh 0 0 100 0) 2%nat (Layout.item_of_size 30 20) eq_refl).
    left. vm_compute. discriminate.
Defined.

(** ** Layouts that fit in one row *)

Section OneRow.

Import FlowLayout.

Variable rect : QRect.

Lemma total_width_nonneg (items : list QLayoutItem) :
  Forall (fun it => 0 <= width (sizeHint it)) items ->
  0 <= Layout.total_width items.
Proof.
  induction 1 as [|it rest Hit _ IH]; cbn [Layout.total_width]; lia.
Qed.

Lemma total_width_take_mono (items : list QLayoutItem) :
  Forall (fun it => 0 <= width (sizeHint it)) items ->
  forall i j : nat,
    (i <= j)%nat ->
    Layout.total_width (take i items) <= Layout.total_width (take j items).
Proof.
  induction 1 as [|it rest Hit Hrest IH]; intros i j Hij.
  - rewrite !take_nil; lia.
  - destruct i as [|i]; destruct j as [|j]; try lia.
    + cbn [take Layout.total_width].
      pose proof (total_width_nonneg (take j rest)
                    (Forall_take _ _ _ Hrest)); lia.
    + cbn [take Layout.total_width]. specialize (IH i j); lia.
Qed.

Lemma loop_sizeHints (testOnly : bool) (items : list QLayoutItem) :
  forall c : cursor,
    map sizeHint (snd (loop rect testOnly c items)) = map sizeHint items.
Proof.
  induction items as [|it rest IH]; intros c; [reflexivity|].
  rewrite loop_cons; cbn [snd map]. rewrite body_sizeHint, IH; reflexivity.
Qed.

(** While everything that is left fits before [rect.right()], the loop
    never wraps: each item lands on the cursor's row, after the widths of
    the items before it. *)
Lemma loop_without_wrap (items : list QLayoutItem) :
  Forall (fun it => 0 <= width (sizeHint it)) items ->
  forall c : cursor,
    cx c + Layout.total_width items <= rect_right rect ->
    forall (i : nat) (it : QLayoutItem),
      snd (loop rect false c items) !! i = Some it ->
      y1 (geometry it) = cy c
      /\ x1 (geometry it) = cx c + Layout.total_width (take i items).
Proof.
  induction 1 as [|a rest Ha Hrest IH]; intros c Hfit i it Hi.
  - discriminate Hi.
  - cbn [Layout.total_width] in Hfit.
    pose proof (total_width_nonneg rest Hrest) as Hnn.
    rewrite loop_cons in Hi; cbn [snd] in Hi.
    assert (Hw : wraps rect c a = false).
    { unfold wraps.
      destruct (Z.gtb_spec (cx c + width (sizeHint a)) (rect_right rect));
        [lia | reflexivity]. }
    unfold body in Hi; rewrite Hw in Hi; cbn [negb fst snd] in Hi.
    destruct i as [|i].
    + injection Hi as <-. cbn. split; lia.
    + cbn [lookup list_lookup] in Hi.
      apply IH in Hi; [|cbn [cx]; lia].
      cbn [cx cy] in Hi. cbn [take Layout.total_width]. split; lia.
Qed.

End OneRow.

(** C3, as the specification has it, fails: a container as wide as the
    widest item does not keep two items on one row, and neither does one
    exactly as wide as all the items together. *)
Lemma widest_item_fitting_is_not_enough :
  (Layout.widest_fits (Layout.layout_of [(50, 20); (60, 20)])
     (QRect_xywh 0 0 100 0)
   /\ ~ Layout.single_row (Layout.layout_of [(50, 20); (60, 20)])
          (QRect_xywh 0 0 100 0))
  /\ (Layout.total_width
        (FlowLayout.itemList (Layout.layout_of [(50, 20); (50, 20)]))
      <= rect_width (QRect_xywh 0 0 100 0)
      /\ ~ Layout.single_row (Layout.layout_of [(50, 20); (50, 20)])
             (QRect_xywh 0 0 100 0)).
Proof.
  split; split.
  - repeat constructor; vm_compute; discriminate.
  - intros [H _].
    specialize (H 1%nat (mkItem (mkQSize 60 20) (mkQRect 0 20 59 39)) eq_refl).
    vm_compute in H. discriminate H.
  - vm_compute; discriminate.
  - intros [H _].
    specialize (H 1%nat (mkItem (mkQSize 50 20) (mkQRect 0 20 49 39)) eq_refl).
    vm_compute in H. discriminate H.
Qed.

(** C3, amended: when the widths are non-negative and their sum is less
    than the container width, all items are placed on the row of the
    origin, in input order, each at [originX] plus the widths of the items
    before it, so with non-decreasing x-offsets. *)
Theorem narrow_enough_items_share_one_row (self : FlowLayout.t)
    (rect : QRect) :
  Forall (fun it => 0 <= width (sizeHint it)) (FlowLayout.itemList self) ->
  Layout.total_width (FlowLayout.itemList self) < rect_width rect ->
  Layout.single_row self rect
  /\ (forall i it,
        Layout.arranged self rect !! i = Some it ->
        x1 (geometry it) =
          rect_x rect + Layout.total_width (take i (FlowLayout.itemList self))).
Proof.
  intros Hnn Hsum.
  assert (Hfit : FlowLayout.cx (FlowLayout.start rect)
                 + Layout.total_width (FlowLayout.itemList self)
                 <= rect_right rect).
  { rewrite right_is_last_column; cbn [FlowLayout.start FlowLayout.cx]; lia. }
  assert (Hpos : forall i it,
             Layout.arranged self rect !! i = Some it ->
             y1 (geometry it) = rect_y rect
             /\ x1 (geometry it) =
                  rect_x rect
                  + Layout.total_width (take i (FlowLayout.itemList self))).
  { intros i it Hi. unfold Layout.arranged in Hi.
    rewrite doLayout_unfold in Hi.
    cbn [fst FlowLayout.with_items FlowLayout.itemList] in Hi.
    apply (loop_without_wrap rect _ Hnn _ Hfit i it Hi). }
  split; [split; [|split]|].
  - intros i it Hi. apply (Hpos i it Hi).
  - unfold Layout.arranged. rewrite doLayout_unfold.
    cbn [fst FlowLayout.with_items FlowLayout.itemList].
    apply loop_sizeHints.
  - intros i j a b Hij Ha Hb.
    destruct (Hpos i a Ha) as [_ ->]. destruct (Hpos j b Hb) as [_ ->].
    pose proof (total_width_take_mono _ Hnn i j Hij). lia.
  - intros i it Hi. apply (Hpos i it Hi).
Qed.

Lemma narrow_enough_items_share_one_row_witness :
  Layout.single_row (Layout.layout_of [(50, 20); (40, 30)])
    (QRect_xywh 0 0 100 0).
Proof.
  apply (narrow_enough_items_share_one_row
           (Layout.layout_of [(50, 20); (40, 30)]) (QRect_xywh 0 0 100 0)).
  - repeat constructor; vm_compute; discriminate.
  - vm_compute; reflexivity.
Defined.

(** ** The wrap guard *)

Section Guard.

Import FlowLayout.

Variable rect : QRect.

Lemma row_invariant_start : Layout.row_invariant (start rect) [].
Proof.
  unfold Layout.row_invariant, start; cbn. split; [lia|]. split; [tauto|].
  split; [lia|]. intros (it & [] & _).
Qed.

Lemma row_invariant_body (c : cursor) (placed : list QLayoutItem)
    (item : QLayoutItem) :
  0 <= height (sizeHint item) ->
  Layout.row_invariant c placed ->
  Layout.row_invariant (fst (body rect false c item))
                       (placed ++ [snd (body rect false c item)]).
Proof.
  intros Hh (Hlh & Hbelow & Hiff).
  unfold Layout.row_invariant, body. cbn [negb fst snd].
  destruct (wraps rect c item) eqn:Hw.
  - assert (Hpos : 0 < lineHeight c).
    { unfold wraps in Hw. apply andb_prop in Hw as [_ Hnz].
      destruct (Z.eqb_spec (lineHeight c) 0); [discriminate|lia]. }
    cbn [cx cy lineHeight]. split; [lia|]. split.
    + intros it [Hin|[<-|[]]]%in_app_iff.
      * specialize (Hbelow it Hin); lia.
      * cbn; lia.
    + split.
      * intros Hmax. eexists.
        split; [apply in_app_iff; right; left; reflexivity|].
        cbn. split; [reflexivity|lia].
      * intros (it & [Hin|[<-|[]]]%in_app_iff & Hy & Hit).
        -- specialize (Hbelow it Hin); lia.
        -- cbn in Hit; lia.
  - cbn [cx cy lineHeight]. split; [lia|]. split.
    + intros it [Hin|[<-|[]]]%in_app_iff.
      * apply Hbelow, Hin.
      * cbn; lia.
    + split.
      * intros Hmax.
        destruct (Z.lt_ge_cases 0 (lineHeight c)) as [Hl|Hl].
        -- apply Hiff in Hl as (it & Hin & Hy & Hit).
           exists it. split; [apply in_app_iff; left; exact Hin|]. tauto.
        -- eexists.
           split; [apply in_app_iff; right; left; reflexivity|].
           cbn. split; [reflexivity|lia].
      * intros (it & [Hin|[<-|[]]]%in_app_iff & Hy & Hit).
        -- assert (0 < lineHeight c) by (apply Hiff; eauto). lia.
        -- cbn in Hit; lia.
Qed.

Lemma row_invariant_loop (items : list QLayoutItem) :
  Forall (fun it => 0 <= height (sizeHint it)) items ->
  Layout.row_invariant (fst (loop rect false (start rect) items))
                       (snd (loop rect false (start rect) items)).
Proof.
  induction items as [|item items IH] using rev_ind; intros Hnn.
  - apply row_invariant_start.
  - apply Forall_app in Hnn as [Hitems Hitem].
    rewrite loop_snoc; cbn [fst snd].
    apply row_invariant_body; [|apply IH, Hitems].
    apply Forall_inv in Hitem; exact Hitem.
Qed.

End Guard.

(** C6, as the specification has it, fails: after an item of height 0 the
    current row is not empty and [lineHeight] is still 0. *)
Lemma guard_is_not_row_nonempty :
  Layout.nonneg_sizes (Layout.layout_of [(60, 0); (60, 10)])
  /\ ~ Layout.stated_guard (Layout.layout_of [(60, 0); (60, 10)])
         (QRect_xywh 0 0 100 0).
Proof.
  split.
  - repeat constructor; vm_compute; discriminate.
  - intros H. specialize (H 1%nat). cbn [length] in H.
    destruct H as [_ H]; [vm_compute; lia|].
    assert (Hz : 0 < 0); [|lia].
    apply H. vm_compute. discriminate.
Qed.

(** C6, amended: with non-negative heights, when the pass for the item of
    index [i] starts, [lineHeight] is not negative, and it is positive
    (the guard holds) exactly when an item of positive height has already
    been placed on the current row.  So a positive [lineHeight] means the
    row is not empty, and when all heights are positive the two are the
    same. *)
Theorem guard_means_row_has_height (self : FlowLayout.t) (rect : QRect)
    (i : nat) :
  Forall (fun it => 0 <= height (sizeHint it)) (FlowLayout.itemList self) ->
  (i <= length (FlowLayout.itemList self))%nat ->
  let c := Layout.cursor_before self rect i in
  0 <= FlowLayout.lineHeight c
  /\ (0 < FlowLayout.lineHeight c <->
      exists it, In it (Layout.on_current_row self rect i)
                 /\ 0 < height (sizeHint it))
  /\ (0 < FlowLayout.lineHeight c -> Layout.on_current_row self rect i <> [])
  /\ (Forall (fun it => 0 < height (sizeHint it)) (FlowLayout.itemList self) ->
      (0 < FlowLayout.lineHeight c
       <-> Layout.on_current_row self rect i <> [])).
Proof.
  intros Hnn _ c.
  destruct (row_invariant_loop rect (take i (FlowLayout.itemList self))
              (Forall_take _ _ _ Hnn)) as (Hlh & _ & Hiff).
  fold (Layout.cursor_before self rect i) in Hlh, Hiff.
  fold (Layout.placed_before self rect i) in Hiff. fold c in Hlh, Hiff.
  assert (Hrow : 0 < FlowLayout.lineHeight c <->
                 exists it, In it (Layout.on_current_row self rect i)
                            /\ 0 < height (sizeHint it)).
  { rewrite Hiff. unfold Layout.on_current_row. fold c.
    split; intros (it & H).
    - exists it. rewrite List.filter_In, Z.eqb_eq. tauto.
    - exists it. rewrite List.filter_In, Z.eqb_eq in H. tauto. }
  split; [exact Hlh|]. split; [exact Hrow|]. split.
  - intros Hpos Hnil. apply Hrow in Hpos as (it & Hin & _).
    rewrite Hnil in Hin. destruct Hin.
  - intros Hall. split.
    + intros Hpos Hnil. apply Hrow in Hpos as (it & Hin & _).
      rewrite Hnil in Hin. destruct Hin.
    + intros Hne. apply Hrow.
      destruct (Layout.on_current_row self rect i) as [|it row] eqn:Erow;
        [congruence|].
      exists it. split; [left; reflexivity|].
      assert (Hin : In it (Layout.on_current_row self rect i))
        by (rewrite Erow; left; reflexivity).
      unfold Layout.on_current_row in Hin.
      apply List.filter_In in Hin as [Hin _].
      unfold Layout.placed_before in Hin.
      apply (in_map sizeHint) in Hin. rewrite loop_sizeHints in Hin.
      apply in_map_iff in Hin as (it0 & Heq & Hin0). rewrite <- Heq.
      apply Forall_take with (n := i) in Hall.
      rewrite Forall_forall in Hall. apply Hall.
      apply list_elem_of_In, Hin0.
Qed.

Lemma guard_means_row_has_height_witness :
  0 < FlowLayout.lineHeight
        (Layout.cursor_before (Layout.layout_of [(60, 0); (60, 10); (30, 5)])
           (QRect_xywh 0 0 100 0) 2)
  <-> exists it,
        In it (Layout.on_current_row
                 (Layout.layout_of [(60, 0); (60, 10); (30, 5)])
                 (QRect_xywh 0 0 100 0) 2)
        /\ 0 < height (sizeHint it).
Proof.
  apply (guard_means_row_has_height
           (Layout.layout_of [(60, 0); (60, 10); (30, 5)])
           (QRect_xywh 0 0 100 0) 2).
  - repeat constructor; vm_compute; discriminate.
  - cbn; lia.
Defined.

(** * Properties of the docker *)

Section DockerProperties.

Import BrushTagSelectorDocker.

(** The test [if self._combo] passes exactly for a selector that is
    there and has items. *)
Lemma truthy_combo_Some (found : option QComboBox) (c : QComboBox) :
  truthy_combo found = Some c <-> found = Some c /\ combo_items c <> [].
Proof.
  unfold truthy_combo, combo_bool, combo_count.
  destruct found as [c0|];
    [|split; [discriminate | intros [H _]; discriminate]].
  destruct (combo_items c0) as [|l ls] eqn:E; cbn.
  - split; [discriminate|]. intros [H Hne]. injection H as ->.
    rewrite E in Hne. contradiction.
  - split.
    + intros H. injection H as <-. rewrite E. split; [reflexivity|discriminate].
    + intros [H _]. exact H.
Qed.

(** Discarding buttons changes the flow and the pending deletions and
    nothing else. *)
Lemma discard_all_frame (bs : list QPushButton) :
  forall d : t,
    _combo (foldl discard d bs) = _combo d
    /\ buttons (foldl discard d bs) = buttons d
    /\ group (foldl discard d bs) = group d
    /\ doomed (foldl discard d bs) = doomed d ++ map wid bs
    /\ fresh (foldl discard d bs) = fresh d
    /\ fs (foldl discard d bs) = fs d
    /\ stdout (foldl discard d bs) = stdout d.
Proof.
  induction bs as [|b bs IH]; intros d; cbn [foldl map].
  - rewrite app_nil_r; repeat split.
  - destruct (IH (discard d b)) as (-> & -> & -> & -> & -> & -> & ->).
    cbn. rewrite <- app_assoc. repeat split.
Qed.

(** A widget still in the flow afterwards was there before and belongs
    to none of the discarded buttons. *)
Lemma discard_all_flow (bs : list QPushButton) :
  forall (d : t) (w : nat),
    In w (flow (foldl discard d bs)) ->
    In w (flow d) /\ forall b, In b bs -> wid b <> w.
Proof.
  induction bs as [|b bs IH]; intros d w Hw; cbn [foldl] in Hw.
  - split; [exact Hw|]. intros b [].
  - apply IH in Hw as [Hw Hbs]. cbn [discard flow] in Hw.
    apply List.filter_In in Hw as [Hw Hne].
    split; [exact Hw|]. intros b' [<-|Hb']; [|apply Hbs, Hb'].
    intros Heq. rewrite Heq, Nat.eqb_refl in Hne. discriminate Hne.
Qed.

(** C9: when the mirror file is missing, or reading it raises,
    [_rebuild_buttons] returns normally with an empty button list.  Every
    previous button has left the flow layout and is handed to
    [deleteLater]; no button is created; a missing file is passed over
    in silence and a failed read prints one error. *)
Theorem rebuild_falls_back_to_no_buttons (d : t) :
  exists_ (fs d) = false \/ Mirror.read_fails (fs d) ->
  exists d' : t,
    _rebuild_buttons d = Ok d'
    /\ buttons d' = []
    /\ (forall b, In b (buttons d) -> ~ In (wid b) (flow d'))
    /\ (forall w, In w (flow d') -> In w (flow d))
    /\ doomed d' = doomed d ++ map wid (buttons d)
    /\ group d' = group d
    /\ fresh d' = fresh d
    /\ (exists_ (fs d) = false -> stdout d' = stdout d)
    /\ (exists_ (fs d) = true ->
        exists e, read_tags (fs d) = Raise e
                  /\ stdout d' = stdout d ++ [ErrorReading e]).
Proof.
  intros Hfail. unfold _rebuild_buttons.
  set (d1 := foldl discard d (buttons d)).
  destruct (discard_all_frame (buttons d) d)
    as (Hc & Hb & Hg & Hd & Hf & Hfs & Hout).
  fold d1 in Hc, Hb, Hg, Hd, Hf, Hfs, Hout.
  assert (Hflow : forall b, In b (buttons d) ->
                            ~ In (wid b) (flow d1)).
  { intros b Hb' Hin.
    apply discard_all_flow in Hin as [_ Hne]. exact (Hne b Hb' eq_refl). }
  assert (Hsub : forall w, In w (flow d1) -> In w (flow d)).
  { intros w Hin. apply discard_all_flow in Hin as [Hin _]. exact Hin. }
  cbn [set_buttons fs]. rewrite Hfs.
  destruct (exists_ (fs d)) eqn:Hex; cbn [negb].
  - destruct Hfail as [Hno|[e He]]; [discriminate Hno|].
    rewrite He. eexists; split; [reflexivity|]. cbn.
    rewrite Hd, Hg, Hf, Hout.
    repeat split; try assumption; try discriminate.
    intros _. exists e. split; reflexivity.
  - eexists; split; [reflexivity|]. cbn.
    rewrite Hd, Hg, Hf, Hout.
    repeat split; try assumption; try discriminate.
Qed.

Lemma rebuild_falls_back_to_no_buttons_witness :
  exists d' : t,
    _rebuild_buttons
      (mk None [mkButton 0 (Mirror.label "Ink") true false] [0%nat]
         [0%nat] [] 1 (mkFs Undecodable true true Posix) []) = Ok d'
    /\ buttons d' = []
    /\ stdout d' = [ErrorReading UnicodeError].
Proof.
  destruct (rebuild_falls_back_to_no_buttons
              (mk None [mkButton 0 (Mirror.label "Ink") true false]
                 [0%nat] [0%nat] [] 1 (mkFs Undecodable true true Posix) []))
    as (d' & Hrun & Hb & _ & _ & _ & _ & _ & _ & Hlog).
  - right. exists UnicodeError. reflexivity.
  - exists d'. split; [exact Hrun|]. split; [exact Hb|].
    destruct (Hlog eq_refl) as (e & He & Hout).
    vm_compute in He. injection He as <-. exact Hout.
Defined.

(** ** Lines and white space *)

Section Strings.

Lemma isspace_LF : isspace LF = true.
Proof. reflexivity. Qed.

Lemma lstrip_head (s : str) :
  (forall c, head s = Some c -> isspace c = false) -> lstrip s = s.
Proof.
  destruct s as [|c s]; intros H; [reflexivity|].
  cbn [lstrip]. rewrite (H c eq_refl). reflexivity.
Qed.

Lemma lstrip_snoc_space (s : str) (c : N) :
  isspace c = true ->
  lstrip (s ++ [c]) =
    match lstrip s with
    | [] => []
    | a :: m => (a :: m) ++ [c]
    end.
Proof.
  intros Hc. induction s as [|a s IH]; cbn [app lstrip].
  - rewrite Hc. reflexivity.
  - destruct (isspace a); [exact IH | reflexivity].
Qed.

Lemma rstrip_snoc_space (s : str) (c : N) :
  isspace c = true -> rstrip (s ++ [c]) = rstrip s.
Proof.
  intros Hc. unfold rstrip. rewrite reverse_snoc. cbn [lstrip].
  rewrite Hc. reflexivity.
Qed.

(** The line feed that ends a line goes away with the white space. *)
Lemma strip_line (s : str) : strip (s ++ [LF]) = strip s.
Proof.
  unfold strip. rewrite (lstrip_snoc_space s LF isspace_LF).
  destruct (lstrip s) as [|a m]; [reflexivity|].
  apply rstrip_snoc_space, isspace_LF.
Qed.

Lemma strip_trimmed (s : str) : Mirror.trimmed s -> strip s = s.
Proof.
  intros (_ & Hhead & Hlast). unfold strip, rstrip.
  rewrite (lstrip_head s Hhead), lstrip_head, reverse_involutive;
    [reflexivity|].
  intros c Hc. rewrite head_reverse in Hc. apply Hlast, Hc.
Qed.

Lemma readlines_line (l rest : str) :
  Forall (fun c => c <> LF) l ->
  readlines (l ++ LF :: rest) = (l ++ [LF]) :: readlines rest.
Proof.
  induction 1 as [|c l Hc _ IH]; cbn [app readlines].
  - rewrite N.eqb_refl. reflexivity.
  - destruct (N.eqb_spec c LF) as [?|_]; [contradiction|].
    rewrite IH. reflexivity.
Qed.

Lemma readlines_lines (labels : list str) :
  Forall (Forall (fun c => c <> LF)) labels ->
  readlines (concat (map (fun l => l ++ [LF]) labels)) =
    map (fun l => l ++ [LF]) labels.
Proof.
  induction 1 as [|l labels Hl _ IH]; [reflexivity|].
  cbn [map concat]. rewrite <- app_assoc. cbn [app].
  rewrite (readlines_line _ _ Hl), IH. reflexivity.
Qed.

(** Text without carriage returns comes back from the file as written,
    under either line separator. *)
Lemma newline_round_trip (sep : linesep) (s : str) :
  Forall (fun c => c <> CR) s ->
  newline_in (newline_out sep s) = s.
Proof.
  intros Hs. destruct sep; cbn [newline_out].
  - induction Hs as [|c s Hc _ IH]; [reflexivity|].
    cbn [newline_in]. destruct (N.eqb_spec c CR) as [?|_]; [contradiction|].
    rewrite IH. reflexivity.
  - induction Hs as [|c s Hc _ IH]; [reflexivity|].
    cbn [map concat]. destruct (N.eqb_spec c LF) as [->|Hlf].
    + cbn. rewrite IH. reflexivity.
    + cbn [app newline_in].
      destruct (N.eqb_spec c CR) as [?|_]; [contradiction|].
      rewrite IH. reflexivity.
Qed.

Lemma lines_without_CR (labels : list str) :
  Forall (Forall (fun c => c <> CR)) labels ->
  Forall (fun c => c <> CR) (concat (map (fun l => l ++ [LF]) labels)).
Proof.
  induction 1 as [|l labels Hl _ IH]; [constructor|].
  cbn [map concat]. apply Forall_app. split; [|exact IH].
  apply Forall_app. split; [exact Hl|]. repeat constructor. discriminate.
Qed.

Lemma write_all_encodable (labels : list str) :
  Forall (fun l => encodable l = true) labels ->
  write_all labels = (concat (map (fun l => l ++ [LF]) labels), Ok tt).
Proof.
  induction 1 as [|l labels Hl _ IH]; [reflexivity|].
  cbn [write_all map concat].
  unfold encodable in *. rewrite forallb_app, Hl. cbn.
  rewrite IH. reflexivity.
Qed.

(** Stripping the lines of the file is stripping the labels. *)
Lemma strip_lines (labels : list str) :
  map strip (List.filter (fun l => truthy (strip l))
                         (map (fun l => l ++ [LF]) labels)) =
  map strip (List.filter (fun l => truthy (strip l)) labels).
Proof.
  induction labels as [|l labels IH]; [reflexivity|].
  cbn [map List.filter]. rewrite strip_line.
  destruct (truthy (strip l)); cbn [map]; rewrite IH, ?strip_line; reflexivity.
Qed.

Lemma strip_trimmed_labels (labels : list str) :
  Forall Mirror.trimmed labels ->
  map strip (List.filter (fun l => truthy (strip l)) labels) = labels.
Proof.
  induction 1 as [|l labels Hl _ IH]; [reflexivity|].
  cbn [List.filter]. rewrite (strip_trimmed l Hl).
  assert (Ht : truthy l = true).
  { destruct Hl as (Hne & _). destruct l; [contradiction | reflexivity]. }
  rewrite Ht. cbn [map]. rewrite IH, (strip_trimmed l Hl). reflexivity.
Qed.

End Strings.

(** ** The mirror file round trip *)

(** The comprehension over [range(count())] reads the items in order. *)
Lemma host_labels_items (c : QComboBox) :
  Mirror.host_labels c = combo_items c.
Proof.
  apply list_eq; intros i. unfold Mirror.host_labels.
  rewrite list_lookup_fmap.
  destruct (Nat.lt_ge_cases i (length (combo_items c))) as [Hlt|Hge].
  - rewrite lookup_seqZ_lt by (unfold combo_count; lia).
    destruct (lookup_lt_is_Some_2 (combo_items c) i Hlt) as [x Hx].
    cbn [fmap option_fmap option_map]. unfold itemText, combo_count.
    destruct (Z.leb_spec 0 (0 + Z.of_nat i)) as [_|?]; [|lia].
    destruct (Z.ltb_spec (0 + Z.of_nat i) (Z.of_nat (length (combo_items c))))
      as [_|?]; [|lia].
    cbn [andb]. replace (Z.to_nat (0 + Z.of_nat i)) with i by lia.
    rewrite Hx. reflexivity.
  - rewrite lookup_seqZ_ge by (unfold combo_count; lia).
    rewrite lookup_ge_None_2 by lia. reflexivity.
Qed.

(** New buttons carry the tags, in order, after the buttons that were
    there; the selector, the file and the output stay. *)
Lemma add_buttons_frame (tags : list str) :
  forall d : t,
    map text (buttons (foldl add_button d tags)) = map text (buttons d) ++ tags
    /\ _combo (foldl add_button d tags) = _combo d
    /\ fs (foldl add_button d tags) = fs d
    /\ stdout (foldl add_button d tags) = stdout d.
Proof.
  induction tags as [|tag tags IH]; intros d; cbn [foldl].
  - rewrite app_nil_r. repeat split.
  - destruct (IH (add_button d tag)) as (-> & -> & -> & ->).
    cbn. rewrite map_app, <- app_assoc. repeat split.
Qed.

Lemma setChecked_text (bs : list QPushButton) (b : QPushButton) (v : bool) :
  map text (setChecked bs b v) = map text bs.
Proof.
  unfold setChecked.
  destruct (negb (checkable b) || eqb (checked b) v); [reflexivity|].
  destruct (negb v); [reflexivity|].
  rewrite map_map. reflexivity.
Qed.

(** Checking and unchecking leaves the labels alone. *)
Lemma sync_button_state_text (d : t) (txt : str) :
  map text (buttons (_sync_button_state d txt)) = map text (buttons d).
Proof.
  unfold _sync_button_state. cbn [set_buttons buttons].
  generalize (seq 0 (length (buttons d))). intros idx.
  generalize (buttons d). induction idx as [|i idx IH]; intros bs;
    [reflexivity|].
  cbn [foldl]. rewrite IH.
  destruct (bs !! i); [apply setChecked_text | reflexivity].
Qed.

(** When the file is there and the read succeeds, the buttons are
    rebuilt from what was read. *)
Lemma rebuild_reads_labels (d : t) (tags : list str) :
  exists_ (fs d) = true ->
  read_tags (fs d) = Ok tags ->
  exists d' : t,
    _rebuild_buttons d = Ok d'
    /\ map text (buttons d') = tags
    /\ fs d' = fs d
    /\ stdout d' = stdout d.
Proof.
  intros Hex Hread. unfold _rebuild_buttons. cbv zeta.
  destruct (discard_all_frame (buttons d) d)
    as (Hc1 & _ & _ & _ & _ & Hfs1 & Hout1).
  remember (set_buttons (foldl discard d (buttons d)) []) as d2 eqn:Ed2.
  assert (Hfs2 : fs d2 = fs d) by (subst d2; exact Hfs1).
  assert (Hout2 : stdout d2 = stdout d) by (subst d2; exact Hout1).
  assert (Hb2 : buttons d2 = []) by (subst d2; reflexivity).
  rewrite Hfs2, Hex, Hread. cbn [negb].
  destruct (add_buttons_frame tags d2) as (Hb3 & _ & Hfs3 & Hout3).
  rewrite Hb2 in Hb3. cbn [map app] in Hb3.
  destruct (truthy_combo (_combo (foldl add_button d2 tags))) as [combo|];
    (eexists; split; [reflexivity|]).
  - rewrite sync_button_state_text, Hb3.
    cbn [_sync_button_state set_buttons fs stdout].
    rewrite Hfs3, Hfs2, Hout3, Hout2. repeat split.
  - rewrite Hb3, Hfs3, Hfs2, Hout3, Hout2. repeat split.
Qed.

(** C8, as the specification has it, fails on labels the file format
    cannot carry: white space at the start of a label is lost, an empty
    label in the middle of the list is dropped although its blank line is
    not a trailing one, and a label with a line break inside comes back
    as two.  It also fails for a selector without items: such a selector
    does not pass [if not self._combo], nothing is written, and the
    buttons are rebuilt from the file of an earlier run. *)
Lemma round_trip_loses_labels :
  ~ Mirror.stated_round_trip
      (Mirror.fresh_docker (mkCombo [Mirror.label " Ink"] 0))
      (mkCombo [Mirror.label " Ink"] 0)
  /\ ~ Mirror.stated_round_trip
         (Mirror.fresh_docker
            (mkCombo [Mirror.label "Ink"; []; Mirror.label "Wet"] 0))
         (mkCombo [Mirror.label "Ink"; []; Mirror.label "Wet"] 0)
  /\ ~ Mirror.stated_round_trip
         (Mirror.fresh_docker (mkCombo [[73; 10; 87]%N] 0))
         (mkCombo [[73; 10; 87]%N] 0)
  /\ ~ Mirror.stated_round_trip
         (mk (Some (mkCombo [] (-1))) [] [] [] [] 0
             (mkFs (Utf8 (Mirror.label "Old" ++ [LF])) true true Posix) [])
         (mkCombo [] (-1)).
Proof.
  repeat split; intros H; destruct (H eq_refl) as (d' & Hrun & Hlab);
    vm_compute in Hrun; injection Hrun as <-;
    vm_compute in Hlab; discriminate Hlab.
Qed.

(** C8, amended: when the selector has at least one label, its labels
    have no line break inside and can be encoded, and the file can be
    written and read, writing the mirror file and rebuilding the buttons
    from it succeeds without output, the file holds one label per line,
    and the buttons carry, in order, the labels stripped of white space
    at both ends, without the labels that are empty or all white space,
    wherever they stand in the list.  So the labels come back exactly as
    they were when each is non-empty and has no white space at either
    end. *)
Theorem mirror_round_trip (d : t) (c : QComboBox) :
  _combo d = Some c ->
  combo_items c <> [] ->
  writable (fs d) = true ->
  readable (fs d) = true ->
  Forall Mirror.one_line (combo_items c) ->
  exists d' : t,
    Mirror.write_then_read d = Ok d'
    /\ Mirror.button_labels d' =
         map strip (List.filter (fun l => truthy (strip l)) (combo_items c))
    /\ (Forall Mirror.trimmed (combo_items c) ->
        Mirror.button_labels d' = combo_items c)
    /\ tags_txt (fs d') =
         Utf8 (newline_out (os_linesep (fs d))
                 (concat (map (fun l => l ++ [LF]) (combo_items c))))
    /\ stdout d' = stdout d.
Proof.
  intros Hc Hne Hw Hr Hlines.
  assert (Htruth : truthy_combo (_combo d) = Some c)
    by (apply truthy_combo_Some; split; assumption).
  assert (Henc : Forall (fun l => encodable l = true) (combo_items c)).
  { eapply Forall_impl; [exact Hlines|]. intros l [_ He]; exact He. }
  assert (Hlf : Forall (Forall (fun ch => ch <> LF)) (combo_items c)).
  { eapply Forall_impl; [exact Hlines|]. intros l [Hl _].
    eapply Forall_impl; [exact Hl|]. intros ch [H _]; exact H. }
  assert (Hcr : Forall (Forall (fun ch => ch <> CR)) (combo_items c)).
  { eapply Forall_impl; [exact Hlines|]. intros l [Hl _].
    eapply Forall_impl; [exact Hl|]. intros ch [_ H]; exact H. }
  set (text := concat (map (fun l => l ++ [LF]) (combo_items c))).
  set (labels := map strip (List.filter (fun l => truthy (strip l))
                                        (combo_items c))).
  assert (Hread : forall f : filesystem,
             readable f = true ->
             tags_txt f = Utf8 (newline_out (os_linesep (fs d)) text) ->
             read_tags f = Ok labels).
  { intros f Hf Ht. unfold read_tags. rewrite Hf, Ht.
    rewrite (newline_round_trip _ _ (lines_without_CR _ Hcr)).
    unfold text. rewrite (readlines_lines _ Hlf), strip_lines. reflexivity. }
  unfold Mirror.write_then_read, _on_tags_changed,
    _sync_tags_from_krita.
  rewrite Htruth. fold (Mirror.host_labels c). rewrite host_labels_items.
  unfold write_tags. rewrite Hw, (write_all_encodable _ Henc). fold text.
  cbn [mbind result_bind].
  destruct (rebuild_reads_labels
              (set_fs d
                 (with_file (fs d)
                    (Utf8 (newline_out (os_linesep (fs d)) text))))
              labels eq_refl
              (Hread (with_file (fs d)
                        (Utf8 (newline_out (os_linesep (fs d)) text)))
                     Hr eq_refl))
    as (d' & Hrun & Hlab & Hfs & Hout).
  exists d'. split; [exact Hrun|]. unfold Mirror.button_labels.
  rewrite Hlab, Hfs, Hout. split; [reflexivity|].
  split; [|split; reflexivity].
  intros Htrim. apply strip_trimmed_labels, Htrim.
Qed.

Lemma mirror_round_trip_witness :
  exists d' : t,
    Mirror.write_then_read
      (Mirror.fresh_docker
         (mkCombo [Mirror.label "Ink"; Mirror.label "Wet paint"] 1)) = Ok d'
    /\ Mirror.button_labels d' = [Mirror.label "Ink"; Mirror.label "Wet paint"].
Proof.
  destruct (mirror_round_trip
              (Mirror.fresh_docker
                 (mkCombo [Mirror.label "Ink"; Mirror.label "Wet paint"] 1))
              (mkCombo [Mirror.label "Ink"; Mirror.label "Wet paint"] 1))
    as (d' & Hrun & _ & Hlab & _).
  - reflexivity.
  - discriminate.
  - reflexivity.
  - reflexivity.
  - repeat constructor; vm_compute; discriminate.
  - exists d'. split; [exact Hrun|]. apply Hlab.
    repeat constructor; try discriminate;
      intros ch Hch; vm_compute in Hch; injection Hch as <-; reflexivity.
Defined.

End DockerProperties.

(** * Further properties of the flow layout *)

(** ** The item list *)

Section ItemList.

Import FlowLayout.

(** [itemAt] reads the list at a non-negative index and gives [None]
    for any other. *)
Lemma itemAt_lookup (self : t) (i : Z) :
  itemAt self i =
    Ok (if 0 <=? i then itemList self !! Z.to_nat i else None).
Proof.
  unfold itemAt.
  destruct (Z.leb_spec 0 i) as [H0|H0]; cbn [andb]; [|reflexivity].
  destruct (Z.ltb_spec i (Z.of_nat (length (itemList self)))) as [H1|H1].
  - destruct (lookup_lt_is_Some_2 (itemList self) (Z.to_nat i))
      as [item Hitem]; [lia|].
    rewrite (py_getitem_in_range _ _ _ H0 Hitem), Hitem. reflexivity.
  - rewrite lookup_ge_None_2 by lia. reflexivity.
Qed.

(** A successful [takeAt] was given an index inside the list and leaves
    the list without that position. *)
Lemma takeAt_Some_inv (self self' : t) (i : Z) (item : QLayoutItem) :
  takeAt self i = Ok (Some item, self') ->
  0 <= i < count self
  /\ itemList self !! Z.to_nat i = Some item
  /\ self' = with_items self (delete (Z.to_nat i) (itemList self)).
Proof.
  unfold takeAt, count.
  destruct (Z.leb_spec 0 i) as [H0|H0]; cbn [andb]; [|discriminate].
  destruct (Z.ltb_spec i (Z.of_nat (length (itemList self)))) as [H1|H1];
    [|discriminate].
  destruct (lookup_lt_is_Some_2 (itemList self) (Z.to_nat i))
    as [a Ha]; [lia|].
  rewrite (py_pop_in_range _ _ _ H0 Ha). cbn.
  intros H. injection H as <- <-. repeat split; assumption.
Qed.

End ItemList.

(** X1: [addItem] puts the item at the end: the count grows by one, the
    new item is found at the old count, and every index that was in range
    still gives the item it gave before. *)
Theorem addItem_appends (self : FlowLayout.t) (item : QLayoutItem) :
  FlowLayout.count (FlowLayout.addItem self item) = FlowLayout.count self + 1
  /\ FlowLayout.itemAt (FlowLayout.addItem self item) (FlowLayout.count self)
       = Ok (Some item)
  /\ (forall i : Z,
        0 <= i < FlowLayout.count self ->
        FlowLayout.itemAt (FlowLayout.addItem self item) i
          = FlowLayout.itemAt self i).
Proof.
  unfold FlowLayout.count. split; [|split].
  - cbn. rewrite length_app. cbn. lia.
  - rewrite itemAt_lookup. cbn [FlowLayout.addItem FlowLayout.with_items
                                  FlowLayout.itemList].
    destruct (Z.leb_spec 0 (Z.of_nat (length (FlowLayout.itemList self))));
      [|lia].
    rewrite Nat2Z.id, list_lookup_middle; reflexivity.
  - intros i [H0 H1]. rewrite !itemAt_lookup.
    cbn [FlowLayout.addItem FlowLayout.with_items FlowLayout.itemList].
    destruct (Z.leb_spec 0 i); [|lia].
    rewrite lookup_app_l by lia. reflexivity.
Qed.

(** X2: a [takeAt] that returns an item shortens the list by one; the
    items before the index keep their places and every later item moves
    down by one. *)
Theorem takeAt_closes_the_gap (self self' : FlowLayout.t) (i : Z)
    (item : QLayoutItem) :
  FlowLayout.takeAt self i = Ok (Some item, self') ->
  FlowLayout.itemAt self i = Ok (Some item)
  /\ FlowLayout.count self' = FlowLayout.count self - 1
  /\ (forall j : Z, j < i ->
        FlowLayout.itemAt self' j = FlowLayout.itemAt self j)
  /\ (forall j : Z, i <= j ->
        FlowLayout.itemAt self' j = FlowLayout.itemAt self (j + 1)).
Proof.
  intros H. apply takeAt_Some_inv in H as ([H0 H1] & Hitem & ->).
  unfold FlowLayout.count in *. split; [|split; [|split]].
  - rewrite itemAt_lookup. destruct (Z.leb_spec 0 i); [|lia].
    rewrite Hitem. reflexivity.
  - cbn [FlowLayout.with_items FlowLayout.itemList].
    rewrite length_delete by (rewrite Hitem; eauto).
    lia.
  - intros j Hj. rewrite !itemAt_lookup.
    cbn [FlowLayout.with_items FlowLayout.itemList].
    destruct (Z.leb_spec 0 j); [|reflexivity].
    rewrite list_lookup_delete_lt by lia. reflexivity.
  - intros j Hj. rewrite !itemAt_lookup.
    cbn [FlowLayout.with_items FlowLayout.itemList].
    destruct (Z.leb_spec 0 j); [|lia].
    destruct (Z.leb_spec 0 (j + 1)); [|lia].
    rewrite list_lookup_delete_ge by lia.
    replace (Z.to_nat (j + 1)) with (S (Z.to_nat j)) by lia. reflexivity.
Qed.

Lemma takeAt_closes_the_gap_witness :
  FlowLayout.itemAt (Layout.layout_of [(10, 5); (30, 7)]) 1
    = FlowLayout.itemAt (Layout.layout_of [(10, 5); (20, 6); (30, 7)]) 2.
Proof.
  apply (takeAt_closes_the_gap
           (Layout.layout_of [(10, 5); (20, 6); (30, 7)])
           (Layout.layout_of [(10, 5); (30, 7)]) 1
           (Layout.item_of_size 20 6)).
  - reflexivity.
  - lia.
Defined.

(** X3: taking the item at the old count right after [addItem] gives the
    item back and the layout as it was before. *)
Theorem addItem_then_takeAt (self : FlowLayout.t) (item : QLayoutItem) :
  FlowLayout.takeAt (FlowLayout.addItem self item) (FlowLayout.count self)
    = Ok (Some item, self).
Proof.
  unfold FlowLayout.takeAt, FlowLayout.count.
  cbn [FlowLayout.addItem FlowLayout.with_items FlowLayout.itemList].
  rewrite length_app. cbn [length].
  destruct (Z.leb_spec 0 (Z.of_nat (length (FlowLayout.itemList self))));
    [|lia].
  destruct (Z.ltb_spec (Z.of_nat (length (FlowLayout.itemList self)))
              (Z.of_nat (length (FlowLayout.itemList self) + 1)));
    [|lia].
  cbn [andb].
  rewrite (py_pop_in_range _ _ item) by
    (try lia; rewrite Nat2Z.id; apply list_lookup_middle; reflexivity).
  cbn. rewrite Nat2Z.id.
  rewrite (delete_middle (FlowLayout.itemList self) [] item), app_nil_r.
  destruct self; reflexivity.
Qed.

(** ** Height and width *)

Section Translation.

Import FlowLayout.

Variables (rect rect' : QRect) (dx dy : Z).

Hypothesis Hx : rect_x rect' = rect_x rect + dx.
Hypothesis Hright : rect_right rect' = rect_right rect + dx.

Lemma body_shifted (t t' : bool) (c c' : cursor) (item : QLayoutItem) :
  Rows.shifted dx dy c c' ->
  Rows.shifted dx dy (fst (body rect t c item)) (fst (body rect' t' c' item)).
Proof.
  intros (Hcx & Hcy & Hlh). unfold Rows.shifted, body, wraps.
  rewrite Hcx, Hlh, Hright, Hx. cbn [fst].
  destruct (Z.gtb_spec (cx c + width (sizeHint item)) (rect_right rect));
    destruct (Z.gtb_spec (cx c + dx + width (sizeHint item))
                (rect_right rect + dx)); try lia;
    destruct (Z.eqb_spec (lineHeight c) 0); cbn [andb negb cx cy lineHeight];
    repeat split; lia.
Qed.

(** Moving the rectangle moves the cursor along and changes nothing
    else, in either mode. *)
Lemma loop_shifted (t t' : bool) (items : list QLayoutItem) :
  forall c c' : cursor,
    Rows.shifted dx dy c c' ->
    Rows.shifted dx dy (fst (loop rect t c items))
                       (fst (loop rect' t' c' items)).
Proof.
  induction items as [|item rest IH]; intros c c' Hs; [exact Hs|].
  rewrite !loop_cons. cbn [fst]. apply IH, body_shifted, Hs.
Qed.

End Translation.

(** X4: the height [_doLayout] returns depends on the rectangle through
    its width only: for every rectangle and either mode it is the height
    [heightForWidth] reports for that width. *)
Theorem height_depends_on_width_only (self : FlowLayout.t) (rect : QRect)
    (testOnly : bool) :
  snd (FlowLayout._doLayout self rect testOnly)
    = snd (FlowLayout.heightForWidth self (rect_width rect)).
Proof.
  unfold FlowLayout.heightForWidth. rewrite !doLayout_unfold. cbn [snd].
  destruct (loop_shifted (QRect_xywh 0 0 (rect_width rect) 0) rect
              (rect_x rect) (rect_y rect)) with
    (t := true) (t' := testOnly) (items := FlowLayout.itemList self)
    (c := FlowLayout.start (QRect_xywh 0 0 (rect_width rect) 0))
    (c' := FlowLayout.start rect) as (_ & Hcy & Hlh).
  - reflexivity.
  - unfold rect_right, rect_width, rect_x, QRect_xywh; cbn. lia.
  - unfold Rows.shifted, FlowLayout.start, rect_x, rect_y; cbn.
    repeat split; lia.
  - rewrite Hcy, Hlh. unfold rect_y; cbn. lia.
Qed.

(** ** Repeated layout passes *)

Section Commit.

Import FlowLayout.

Variable rect : QRect.

Lemma loop_length (testOnly : bool) (items : list QLayoutItem) :
  forall c : cursor,
    length (snd (loop rect testOnly c items)) = length items.
Proof.
  induction items as [|item rest IH]; intros c; [reflexivity|].
  rewrite loop_cons; cbn [snd length]; rewrite IH; reflexivity.
Qed.

(** A committing pass looks at the size hints only. *)
Lemma loop_commit_sizeHints (a : list QLayoutItem) :
  forall (b : list QLayoutItem) (c : cursor),
    map sizeHint a = map sizeHint b ->
    loop rect false c a = loop rect false c b.
Proof.
  induction a as [|x a IH]; intros [|y b] c Hab; try discriminate;
    [reflexivity|].
  cbn [map] in Hab. injection Hab as Hxy Hab.
  rewrite !loop_cons.
  assert (Hbody : body rect false c x = body rect false c y).
  { unfold body, wraps, item_setGeometry. rewrite Hxy. reflexivity. }
  rewrite Hbody, (IH b _ Hab). reflexivity.
Qed.

(** Every item leaves a committing pass with a geometry of exactly its
    preferred size. *)
Lemma loop_commit_sizes (items : list QLayoutItem) :
  forall (c : cursor) (i : nat) (it : QLayoutItem),
    snd (loop rect false c items) !! i = Some it ->
    rect_size (geometry it) = sizeHint it.
Proof.
  induction items as [|a rest IH]; intros c i it Hi; [discriminate|].
  rewrite loop_cons in Hi. destruct i as [|i].
  - injection Hi as <-. unfold body; cbn [negb snd].
    unfold rect_size, rect_width, rect_height, item_setGeometry, QRect_ps.
    cbn. destruct (sizeHint a) as [w h]; cbn. f_equal; lia.
  - apply (IH _ i it Hi).
Qed.

End Commit.

(** X5: the last [setGeometry] wins: laying out in one rectangle and then
    in another leaves the layout exactly as laying out in the second
    alone does; in particular a second pass in the same rectangle changes
    nothing. *)
Theorem setGeometry_last_call_wins (self : FlowLayout.t) (r1 r2 : QRect) :
  FlowLayout.setGeometry (FlowLayout.setGeometry self r1) r2
    = FlowLayout.setGeometry self r2
  /\ FlowLayout.setGeometry (FlowLayout.setGeometry self r2) r2
       = FlowLayout.setGeometry self r2.
Proof.
  assert (H : forall ra rb,
             FlowLayout.setGeometry (FlowLayout.setGeometry self ra) rb
               = FlowLayout.setGeometry self rb).
  { intros ra rb. unfold FlowLayout.setGeometry.
    rewrite !doLayout_unfold. cbn [fst FlowLayout.with_items
                                     FlowLayout.itemList FlowLayout.margin
                                     FlowLayout.spacing].
    rewrite (loop_commit_sizeHints rb _ (FlowLayout.itemList self));
      [reflexivity|].
    apply loop_sizeHints. }
  split; apply H.
Qed.

(** X6: a committing pass keeps the items, their number, their order and
    their preferred sizes, and gives every item a geometry of exactly its
    preferred size; margin and spacing stay. *)
Theorem setGeometry_keeps_the_items (self : FlowLayout.t) (rect : QRect) :
  FlowLayout.count (FlowLayout.setGeometry self rect) = FlowLayout.count self
  /\ map sizeHint (FlowLayout.itemList (FlowLayout.setGeometry self rect))
       = map sizeHint (FlowLayout.itemList self)
  /\ (forall i it,
        FlowLayout.itemList (FlowLayout.setGeometry self rect) !! i = Some it ->
        rect_size (geometry it) = sizeHint it)
  /\ FlowLayout.margin (FlowLayout.setGeometry self rect)
       = FlowLayout.margin self
  /\ FlowLayout.spacing (FlowLayout.setGeometry self rect)
       = FlowLayout.spacing self.
Proof.
  unfold FlowLayout.setGeometry, FlowLayout.count.
  rewrite doLayout_unfold.
  cbn [fst FlowLayout.with_items FlowLayout.itemList FlowLayout.margin
         FlowLayout.spacing].
  split; [|split; [|split; [|split; reflexivity]]].
  - rewrite loop_length. reflexivity.
  - apply loop_sizeHints.
  - intros i it Hi. apply (loop_commit_sizes rect _ _ i it Hi).
Qed.

(** ** Where the items end up *)

Section Placement.

Import FlowLayout.

Variable rect : QRect.

(** The arranged list around the item of index [i]: the items placed
    before it, the item as the body leaves it, and the rest laid out from
    the cursor after it. *)
Lemma arranged_split (self : t) (i : nat) (item : QLayoutItem) :
  itemList self !! i = Some item ->
  Layout.arranged self rect =
    Layout.placed_before self rect i
    ++ snd (body rect false (Layout.cursor_before self rect i) item)
    :: snd (loop rect false (Layout.cursor_before self rect (S i))
              (drop (S i) (itemList self)))
  /\ length (Layout.placed_before self rect i) = i.
Proof.
  intros Hi. split.
  - unfold Layout.arranged, Layout.placed_before, Layout.cursor_before.
    rewrite doLayout_unfold. cbn [fst with_items itemList].
    rewrite <- (take_drop (S i) (itemList self)) at 1.
    rewrite loop_app. cbn [snd].
    rewrite (take_S_r _ _ _ Hi), loop_snoc. cbn [fst snd].
    rewrite <- app_assoc. reflexivity.
  - unfold Layout.placed_before. rewrite loop_length, length_take.
    apply lookup_lt_Some in Hi. lia.
Qed.

(** Once the cursor is past an item it stays past it, and whatever the
    body places next lies clear of the item. *)
Lemma past_body (a : QLayoutItem) (c : cursor) (item : QLayoutItem) :
  0 <= width (sizeHint item) ->
  0 <= height (sizeHint item) ->
  Rows.past a c ->
  Rows.past a (fst (body rect false c item))
  /\ Rows.clear_of a (snd (body rect false c item)).
Proof.
  intros Hw Hh (Hlh & Hpast). unfold Rows.past, Rows.clear_of, body, wraps.
  cbn [negb fst snd].
  destruct (Z.gtb_spec (cx c + width (sizeHint item)) (rect_right rect));
    destruct (Z.eqb_spec (lineHeight c) 0);
    cbn [andb negb cx cy lineHeight item_setGeometry geometry QRect_ps
           x1 y1 x2 y2 px py];
    (split; [split; [lia|]|]); lia.
Qed.

Lemma past_loop (a : QLayoutItem) (items : list QLayoutItem) :
  Forall (fun it => 0 <= width (sizeHint it) /\ 0 <= height (sizeHint it))
         items ->
  forall c : cursor,
    Rows.past a c ->
    forall (j : nat) (b : QLayoutItem),
      snd (loop rect false c items) !! j = Some b -> Rows.clear_of a b.
Proof.
  induction 1 as [|item rest [Hw Hh] _ IH]; intros c Hpast j b Hj;
    [discriminate|].
  rewrite loop_cons in Hj.
  destruct (past_body a c item Hw Hh Hpast) as [Hnext Hclear].
  destruct j as [|j].
  - injection Hj as <-. exact Hclear.
  - apply (IH _ Hnext j b Hj).
Qed.

(** The body leaves the cursor past the item it has just placed. *)
Lemma past_placed (c : cursor) (item : QLayoutItem) :
  0 <= lineHeight c ->
  Rows.past (snd (body rect false c item)) (fst (body rect false c item)).
Proof.
  intros Hlh. unfold Rows.past, body, wraps. cbn [negb fst snd].
  destruct (Z.gtb_spec (cx c + width (sizeHint item)) (rect_right rect));
    destruct (Z.eqb_spec (lineHeight c) 0);
    cbn [andb negb cx cy lineHeight item_setGeometry geometry QRect_ps
           x1 y1 x2 y2 px py];
    (split; [lia|]); left; repeat split; lia.
Qed.

Lemma total_height_snoc (items : list QLayoutItem) (item : QLayoutItem) :
  Rows.total_height (items ++ [item])
    = Rows.total_height items + height (sizeHint item).
Proof.
  induction items as [|a items IH]; cbn [app Rows.total_height]; lia.
Qed.

Lemma tallest_snoc (items : list QLayoutItem) (item : QLayoutItem) :
  Rows.tallest (items ++ [item])
    = Z.max (Rows.tallest items) (Z.max (height (sizeHint item)) 0).
Proof.
  induction items as [|a items IH]; cbn [app Rows.tallest]; lia.
Qed.

Lemma height_bounds_loop (items : list QLayoutItem) :
  Rows.nonneg_heights items ->
  Rows.height_bounds rect items (fst (loop rect false (start rect) items)).
Proof.
  induction items as [|item items IH] using rev_ind; intros Hnn.
  - unfold Rows.height_bounds, start; cbn. lia.
  - apply Forall_app in Hnn as [Hitems Hitem].
    apply Forall_inv in Hitem.
    specialize (IH Hitems). rewrite loop_snoc. cbn [fst].
    destruct IH as (Hy & Hlh & Hlow & Hup).
    unfold Rows.height_bounds, body, wraps.
    rewrite total_height_snoc, tallest_snoc. cbn [fst].
    set (c := fst (loop rect false (start rect) items)) in *.
    destruct (Z.gtb_spec (cx c + width (sizeHint item)) (rect_right rect));
      destruct (Z.eqb_spec (lineHeight c) 0);
      cbn [andb negb cx cy lineHeight]; lia.
Qed.

Lemma margin_or_line_loop (items : list QLayoutItem) :
  Rows.nonneg_widths items ->
  Rows.positive_heights items ->
  Rows.margin_or_line rect (fst (loop rect false (start rect) items)).
Proof.
  induction items as [|item items IH] using rev_ind; intros Hw Hh.
  - unfold Rows.margin_or_line, start; cbn. lia.
  - apply Forall_app in Hw as [Hws Hw]. apply Forall_inv in Hw.
    apply Forall_app in Hh as [Hhs Hh]. apply Forall_inv in Hh.
    specialize (IH Hws Hhs). rewrite loop_snoc. cbn [fst].
    destruct IH as (Hx & Hor).
    unfold Rows.margin_or_line, body, wraps. cbn [fst].
    set (c := fst (loop rect false (start rect) items)) in *.
    destruct (Z.gtb_spec (cx c + width (sizeHint item)) (rect_right rect));
      destruct (Z.eqb_spec (lineHeight c) 0);
      cbn [andb negb cx cy lineHeight]; lia.
Qed.

Lemma stacking_loop (items : list QLayoutItem) :
  Rows.too_wide_for_two rect items ->
  Rows.stacking rect items (fst (loop rect false (start rect) items)).
Proof.
  induction items as [|item items IH] using rev_ind; intros Hall.
  - unfold Rows.stacking, start; cbn. split; [lia|]. left; split; reflexivity.
  - apply Forall_app in Hall as [Hitems Hitem].
    apply Forall_inv in Hitem. destruct Hitem as (HW & Hw & Hh).
    specialize (IH Hitems). rewrite loop_snoc. cbn [fst].
    destruct IH as (Hsum & Hor).
    unfold Rows.stacking, body, wraps. rewrite total_height_snoc. cbn [fst].
    set (c := fst (loop rect false (start rect) items)) in *.
    rewrite right_is_last_column.
    destruct (Z.gtb_spec (cx c + width (sizeHint item))
                (rect_x rect + rect_width rect - 1));
      destruct (Z.eqb_spec (lineHeight c) 0);
      cbn [andb negb cx cy lineHeight];
      (split; [|right]);
      destruct Hor as [[Hz Hnil]|[Hpos Hcx]]; try lia.
    subst items. unfold c, start in *. cbn in *. lia.
Qed.

End Placement.

(** X7: items never overlap.  With non-negative sizes, an item and any
    item after it in the list end up either on the same row with the
    earlier one ending left of where the later one starts, or with the
    earlier one ending above the later one. *)
Theorem arranged_items_do_not_overlap (self : FlowLayout.t) (rect : QRect)
    (i j : nat) (a b : QLayoutItem) :
  Layout.nonneg_sizes self ->
  (i < j)%nat ->
  Layout.arranged self rect !! i = Some a ->
  Layout.arranged self rect !! j = Some b ->
  Rows.clear_of a b.
Proof.
  intros Hnn Hij Ha Hb.
  assert (Hlen : length (Layout.arranged self rect)
                 = length (FlowLayout.itemList self)).
  { unfold Layout.arranged. rewrite doLayout_unfold.
    cbn [fst FlowLayout.with_items FlowLayout.itemList]. apply loop_length. }
  destruct (lookup_lt_is_Some_2 (FlowLayout.itemList self) i) as [item Hi].
  { rewrite <- Hlen. eapply lookup_lt_Some, Ha. }
  destruct (arranged_split rect self i item Hi) as [Hsplit Hpre].
  rewrite Hsplit in Ha, Hb.
  rewrite list_lookup_middle in Ha by (symmetry; exact Hpre).
  injection Ha as <-.
  rewrite lookup_app_r in Hb by lia. rewrite Hpre in Hb.
  destruct (j - i)%nat as [|k] eqn:Hk; [lia|]. cbn [lookup list_lookup] in Hb.
  rewrite (cursor_before_S _ _ _ _ Hi) in Hb.
  eapply past_loop; [| |exact Hb].
  - apply Forall_drop, Hnn.
  - apply past_placed.
    destruct (row_invariant_loop rect (take i (FlowLayout.itemList self)))
      as (Hlh & _).
    + apply Forall_take. eapply Forall_impl; [exact Hnn|].
      intros it [_ H]; exact H.
    + exact Hlh.
Qed.

Lemma arranged_items_do_not_overlap_witness :
  Rows.clear_of (mkItem (mkQSize 50 20) (mkQRect 0 0 49 19))
                (mkItem (mkQSize 60 30) (mkQRect 0 20 59 49)).
Proof.
  apply (arranged_items_do_not_overlap
           (Layout.layout_of [(50, 20); (60, 30); (30, 10)])
           (QRect_xywh 0 0 100 0) 0 1).
  - repeat constructor; vm_compute; discriminate.
  - lia.
  - reflexivity.
  - reflexivity.
Defined.

(** X8: with non-negative heights, the height a layout pass returns, in
    either mode, is at least the height of the tallest item and at most
    the sum of all heights. *)
Theorem layout_height_bounds (self : FlowLayout.t) (rect : QRect)
    (testOnly : bool) :
  Rows.nonneg_heights (FlowLayout.itemList self) ->
  Rows.tallest (FlowLayout.itemList self)
    <= snd (FlowLayout._doLayout self rect testOnly)
    <= Rows.total_height (FlowLayout.itemList self).
Proof.
  intros Hnn.
  assert (Hmode : snd (FlowLayout._doLayout self rect testOnly)
                  = snd (FlowLayout._doLayout self rect false)).
  { rewrite !doLayout_unfold. cbn [snd].
    destruct testOnly; [rewrite loop_cursor_mode|]; reflexivity. }
  rewrite Hmode, doLayout_unfold. cbn [snd].
  destruct (height_bounds_loop rect _ Hnn) as (_ & _ & Hlow & Hup).
  split; assumption.
Qed.

Lemma layout_height_bounds_witness :
  30 <= snd (FlowLayout._doLayout
               (Layout.layout_of [(50, 20); (60, 30); (30, 10)])
               (QRect_xywh 0 0 100 0) true)
     <= 60.
Proof.
  apply (layout_height_bounds
           (Layout.layout_of [(50, 20); (60, 30); (30, 10)])
           (QRect_xywh 0 0 100 0) true).
  repeat constructor; vm_compute; discriminate.
Defined.

(** X9: with non-negative widths and positive heights, no item starts
    left of the rectangle, and an item that does not start at the left
    margin ends before the rectangle's last column: only the first item
    of a row can stick out on the right. *)
Theorem only_row_heads_stick_out (self : FlowLayout.t) (rect : QRect)
    (i : nat) (b : QLayoutItem) :
  Rows.nonneg_widths (FlowLayout.itemList self) ->
  Rows.positive_heights (FlowLayout.itemList self) ->
  Layout.arranged self rect !! i = Some b ->
  rect_x rect <= x1 (geometry b)
  /\ (x1 (geometry b) = rect_x rect \/ x2 (geometry b) < rect_right rect).
Proof.
  intros Hw Hh Hb.
  assert (Hlen : length (Layout.arranged self rect)
                 = length (FlowLayout.itemList self)).
  { unfold Layout.arranged. rewrite doLayout_unfold.
    cbn [fst FlowLayout.with_items FlowLayout.itemList]. apply loop_length. }
  destruct (lookup_lt_is_Some_2 (FlowLayout.itemList self) i) as [item Hi].
  { rewrite <- Hlen. eapply lookup_lt_Some, Hb. }
  rewrite (arranged_lookup _ _ _ _ Hi) in Hb. injection Hb as <-.
  destruct (margin_or_line_loop rect (take i (FlowLayout.itemList self)))
    as (Hx & Hor).
  { apply Forall_take, Hw. }
  { apply Forall_take, Hh. }
  fold (Layout.cursor_before self rect i) in Hx, Hor.
  set (c := Layout.cursor_before self rect i) in *.
  unfold FlowLayout.body, FlowLayout.wraps. cbn [negb snd].
  destruct (Z.gtb_spec (FlowLayout.cx c + width (sizeHint item))
              (rect_right rect));
    destruct (Z.eqb_spec (FlowLayout.lineHeight c) 0);
    cbn [andb negb FlowLayout.cx FlowLayout.cy item_setGeometry geometry
           QRect_ps x1 x2 px]; lia.
Qed.

Lemma only_row_heads_stick_out_witness :
  0 <= x1 (mkQRect 50 0 79 19)
  /\ (x1 (mkQRect 50 0 79 19) = 0 \/ x2 (mkQRect 50 0 79 19) < 99).
Proof.
  apply (only_row_heads_stick_out
           (Layout.layout_of [(50, 20); (30, 20); (200, 10)])
           (QRect_xywh 0 0 100 0) 1
           (mkItem (mkQSize 30 20) (mkQRect 50 0 79 19))).
  - repeat constructor; vm_compute; discriminate.
  - repeat constructor.
  - reflexivity.
Defined.

(** X10: when every item is at least as wide as the rectangle (and has a
    non-negative width and a positive height), every item gets a row of
    its own: each is placed at the left margin, below the items before it
    by their heights, and the returned height is the sum of all
    heights. *)
Theorem wide_items_are_stacked (self : FlowLayout.t) (rect : QRect) :
  Rows.too_wide_for_two rect (FlowLayout.itemList self) ->
  (forall i b,
      Layout.arranged self rect !! i = Some b ->
      x1 (geometry b) = rect_x rect
      /\ y1 (geometry b) =
           rect_y rect
           + Rows.total_height (take i (FlowLayout.itemList self)))
  /\ snd (FlowLayout._doLayout self rect false)
       = Rows.total_height (FlowLayout.itemList self).
Proof.
  intros Hall. split.
  - intros i b Hb.
    assert (Hlen : length (Layout.arranged self rect)
                   = length (FlowLayout.itemList self)).
    { unfold Layout.arranged. rewrite doLayout_unfold.
      cbn [fst FlowLayout.with_items FlowLayout.itemList]. apply loop_length. }
    destruct (lookup_lt_is_Some_2 (FlowLayout.itemList self) i) as [item Hi].
    { rewrite <- Hlen. eapply lookup_lt_Some, Hb. }
    rewrite (arranged_lookup _ _ _ _ Hi) in Hb. injection Hb as <-.
    destruct (stacking_loop rect (take i (FlowLayout.itemList self)))
      as (Hsum & Hor).
    { apply Forall_take, Hall. }
    fold (Layout.cursor_before self rect i) in Hsum, Hor.
    assert (Hitem : 0 <= width (sizeHint item)).
    { unfold Rows.too_wide_for_two in Hall. rewrite Forall_lookup in Hall.
      apply (Hall i item Hi). }
    set (c := Layout.cursor_before self rect i) in *.
    unfold FlowLayout.body, FlowLayout.wraps. cbn [negb snd].
    rewrite right_is_last_column.
    destruct (Z.gtb_spec (FlowLayout.cx c + width (sizeHint item))
                (rect_x rect + rect_width rect - 1));
      destruct (Z.eqb_spec (FlowLayout.lineHeight c) 0);
      cbn [andb negb FlowLayout.cx FlowLayout.cy item_setGeometry geometry
             QRect_ps x1 y1 px py];
      destruct Hor as [[Hz Hnil]|[Hpos Hcx]]; try lia;
      rewrite Hnil in *; cbn in Hsum;
      (assert (Hc : c = FlowLayout.start rect)
         by (unfold c, Layout.cursor_before; rewrite Hnil; reflexivity));
      rewrite Hc in *; cbn in *; lia.
  - rewrite doLayout_unfold. cbn [snd].
    destruct (stacking_loop rect _ Hall) as (Hsum & _). lia.
Qed.

Lemma wide_items_are_stacked_witness :
  snd (FlowLayout._doLayout (Layout.layout_of [(120, 20); (100, 30)])
         (QRect_xywh 0 0 100 0) false) = 50.
Proof.
  apply (wide_items_are_stacked (Layout.layout_of [(120, 20); (100, 30)])
           (QRect_xywh 0 0 100 0)).
  repeat constructor; vm_compute; discriminate.
Defined.

(** ** The minimum size *)

Section MinimumSize.

Variable item_minimumSize : QLayoutItem -> QSize.

Lemma expand_all_bounds (items : list QLayoutItem) :
  forall acc : QSize,
    let size := foldl (fun size item => expandedTo size (item_minimumSize item))
                      acc items in
    (width acc <= width size /\ height acc <= height size)
    /\ (forall item, In item items ->
          width (item_minimumSize item) <= width size
          /\ height (item_minimumSize item) <= height size)
    /\ (width size = width acc
        \/ exists item, In item items
                        /\ width size = width (item_minimumSize item))
    /\ (height size = height acc
        \/ exists item, In item items
                        /\ height size = height (item_minimumSize item)).
Proof.
  induction items as [|a items IH]; intros acc; cbn [foldl].
  - cbn. repeat split; try lia; try (left; reflexivity);
      intros item [].
  - specialize (IH (expandedTo acc (item_minimumSize a))).
    cbv zeta in IH. destruct IH as ((Hw & Hh) & Hall & Hwa & Hha).
    cbn [expandedTo width height] in Hw, Hh, Hwa, Hha.
    cbv zeta. split; [split; lia|]. split; [|split].
    + intros item [<-|Hin]; [split; lia | apply Hall, Hin].
    + destruct Hwa as [Hwa|(item & Hin & Hwa)].
      * destruct (Z.max_spec (width acc) (width (item_minimumSize a)))
          as [[_ Hm]|[_ Hm]]; rewrite Hm in Hwa.
        -- right. exists a. split; [left; reflexivity | exact Hwa].
        -- left. exact Hwa.
      * right. exists item. split; [right; exact Hin | exact Hwa].
    + destruct Hha as [Hha|(item & Hin & Hha)].
      * destruct (Z.max_spec (height acc) (height (item_minimumSize a)))
          as [[_ Hm]|[_ Hm]]; rewrite Hm in Hha.
        -- right. exists a. split; [left; reflexivity | exact Hha].
        -- left. exact Hha.
      * right. exists item. split; [right; exact Hin | exact Hha].
Qed.

(** X11: the minimum size of the layout, which is also its size hint, is
    in each dimension the largest of the items' minimum sizes, and the
    invalid size [(-1, -1)] for a layout without items: it is at least
    every item's minimum, never below -1, and either -1 or the minimum of
    one of the items. *)
Theorem minimumSize_is_the_largest_minimum (self : FlowLayout.t) :
  let size := FlowLayoutSize.minimumSize item_minimumSize self in
  FlowLayoutSize.sizeHint item_minimumSize self = size
  /\ (FlowLayout.itemList self = [] -> size = QSize_null)
  /\ (-1 <= width size /\ -1 <= height size)
  /\ (forall item, In item (FlowLayout.itemList self) ->
        width (item_minimumSize item) <= width size
        /\ height (item_minimumSize item) <= height size)
  /\ (width size = -1
      \/ exists item, In item (FlowLayout.itemList self)
                      /\ width size = width (item_minimumSize item))
  /\ (height size = -1
      \/ exists item, In item (FlowLayout.itemList self)
                      /\ height size = height (item_minimumSize item)).
Proof.
  cbv zeta. unfold FlowLayoutSize.sizeHint, FlowLayoutSize.minimumSize.
  destruct (expand_all_bounds (FlowLayout.itemList self) QSize_null)
    as (Hacc & Hall & Hw & Hh).
  split; [reflexivity|]. split; [intros ->; reflexivity|].
  split; [exact Hacc|]. split; [exact Hall|]. split; assumption.
Qed.

End MinimumSize.

(** * Further properties of the docker *)

Section DockerMore.

Import BrushTagSelectorDocker.

(** ** Writing the mirror file *)

(** Writing stops at the first label the codec refuses; the lines before
    it reach the file. *)
Lemma write_all_stops (good rest : list str) (bad : str) :
  Forall (fun l => encodable l = true) good ->
  encodable bad = false ->
  write_all (good ++ bad :: rest)
    = (concat (map (fun l => l ++ [LF]) good), Raise UnicodeError).
Proof.
  intros Hgood Hbad. induction Hgood as [|l good Hl _ IH].
  - cbn [app write_all map concat]. unfold encodable in *.
    rewrite forallb_app, Hbad. reflexivity.
  - cbn [app write_all map concat]. unfold encodable in *.
    rewrite forallb_app, Hl. cbn. rewrite IH. reflexivity.
Qed.

Lemma write_tags_flags (f : filesystem) (tags : list str) :
  readable (fst (write_tags f tags)) = readable f
  /\ writable (fst (write_tags f tags)) = writable f
  /\ os_linesep (fst (write_tags f tags)) = os_linesep f.
Proof.
  unfold write_tags. destruct (writable f) eqn:Hw.
  - destruct (write_all tags). cbn. rewrite Hw. repeat split.
  - cbn. rewrite Hw. repeat split.
Qed.

(** Writing the same labels again leaves the file system as the first
    write left it. *)
Lemma write_tags_twice (f : filesystem) (tags : list str) :
  write_tags (fst (write_tags f tags)) tags
    = (fst (write_tags f tags), snd (write_tags f tags)).
Proof.
  unfold write_tags. destruct (writable f) eqn:Hw.
  - destruct (write_all tags) as [out r]. cbn. rewrite Hw. reflexivity.
  - cbn. rewrite Hw. reflexivity.
Qed.

(** [_sync_tags_from_krita] in one equation. *)
Lemma sync_tags_unfold (d : t) (c : QComboBox) :
  truthy_combo (_combo d) = Some c ->
  _sync_tags_from_krita d =
    Ok (match snd (write_tags (fs d) (combo_items c)) with
        | Ok _ => set_fs d (fst (write_tags (fs d) (combo_items c)))
        | Raise e =>
            print (set_fs d (fst (write_tags (fs d) (combo_items c))))
                  (ErrorWriting e)
        end).
Proof.
  intros Hc. unfold _sync_tags_from_krita. rewrite Hc.
  fold (Mirror.host_labels c). rewrite host_labels_items.
  destruct (write_tags (fs d) (combo_items c)) as [f1 [u|e]]; reflexivity.
Qed.

(** X12: when the selector has items and the mirror file cannot be
    opened for writing, [_sync_tags_from_krita] returns normally, prints
    one write error and leaves the file, the buttons and everything else
    as they were. *)
Theorem sync_tags_survives_unwritable_file (d : t) (c : QComboBox) :
  _combo d = Some c ->
  combo_items c <> [] ->
  writable (fs d) = false ->
  exists d' : t,
    _sync_tags_from_krita d = Ok d'
    /\ stdout d' = stdout d ++ [ErrorWriting OSError]
    /\ fs d' = fs d
    /\ buttons d' = buttons d
    /\ flow d' = flow d
    /\ _combo d' = _combo d.
Proof.
  intros Hc Hne Hw.
  rewrite (sync_tags_unfold d c (proj2 (truthy_combo_Some _ _) (conj Hc Hne))).
  unfold write_tags. rewrite Hw. cbn [fst snd].
  eexists. split; [reflexivity|]. cbn. repeat split.
Qed.

Lemma sync_tags_survives_unwritable_file_witness :
  exists d' : t,
    _sync_tags_from_krita
      (mk (Some (mkCombo [Mirror.label "Ink"] 0)) [] [] [] [] 0
          (mkFs (Utf8 (Mirror.label "Old")) true false Posix) []) = Ok d'
    /\ stdout d' = [ErrorWriting OSError]
    /\ tags_txt (fs d') = Utf8 (Mirror.label "Old").
Proof.
  destruct (sync_tags_survives_unwritable_file
              (mk (Some (mkCombo [Mirror.label "Ink"] 0)) [] [] [] [] 0
                  (mkFs (Utf8 (Mirror.label "Old")) true false Posix) [])
              (mkCombo [Mirror.label "Ink"] 0) eq_refl)
    as (d' & Hrun & Hout & Hfs & _).
  - discriminate.
  - reflexivity.
  - exists d'. split; [exact Hrun|]. split; [exact Hout|].
    rewrite Hfs. reflexivity.
Defined.

(** X13: when one of the selector's labels cannot be encoded, the write
    stops there: [_sync_tags_from_krita] returns normally and prints one
    write error, and the file holds the labels that come before the
    first such label, one per line, and nothing of the rest. *)
Theorem sync_tags_truncates_at_unencodable_label (d : t) (c : QComboBox)
    (good rest : list str) (bad : str) :
  _combo d = Some c ->
  writable (fs d) = true ->
  combo_items c = good ++ bad :: rest ->
  Forall (fun l => encodable l = true) good ->
  encodable bad = false ->
  exists d' : t,
    _sync_tags_from_krita d = Ok d'
    /\ stdout d' = stdout d ++ [ErrorWriting UnicodeError]
    /\ tags_txt (fs d') =
         Utf8 (newline_out (os_linesep (fs d))
                 (concat (map (fun l => l ++ [LF]) good)))
    /\ buttons d' = buttons d.
Proof.
  intros Hc Hw Hitems Hgood Hbad.
  assert (Hne : combo_items c <> [])
    by (rewrite Hitems; destruct good; discriminate).
  rewrite (sync_tags_unfold d c (proj2 (truthy_combo_Some _ _) (conj Hc Hne))).
  unfold write_tags. rewrite Hw, Hitems, (write_all_stops _ _ _ Hgood Hbad).
  cbn [fst snd]. eexists. split; [reflexivity|]. cbn. repeat split.
Qed.

Lemma sync_tags_truncates_at_unencodable_label_witness :
  exists d' : t,
    _sync_tags_from_krita
      (Mirror.fresh_docker
         (mkCombo [Mirror.label "Ink"; [55296%N]; Mirror.label "Wet"] 0))
      = Ok d'
    /\ tags_txt (fs d') = Utf8 (Mirror.label "Ink" ++ [LF]).
Proof.
  destruct (sync_tags_truncates_at_unencodable_label
              (Mirror.fresh_docker
                 (mkCombo [Mirror.label "Ink"; [55296%N]; Mirror.label "Wet"]
                          0))
              (mkCombo [Mirror.label "Ink"; [55296%N]; Mirror.label "Wet"] 0)
              [Mirror.label "Ink"] [Mirror.label "Wet"] [55296%N]
              eq_refl eq_refl eq_refl)
    as (d' & Hrun & _ & Hfs & _).
  - repeat constructor.
  - reflexivity.
  - exists d'. split; [exact Hrun|]. rewrite Hfs. reflexivity.
Defined.

(** ** Rebuilding the buttons *)

(** [_rebuild_buttons] always returns; the buttons then carry what the
    file gives to read, and the file and the selector are untouched. *)
Lemma rebuild_shows_file (d : t) :
  exists d' : t,
    _rebuild_buttons d = Ok d'
    /\ map text (buttons d') = Selection.labels_on_file (fs d)
    /\ fs d' = fs d
    /\ _combo d' = _combo d.
Proof.
  unfold Selection.labels_on_file.
  destruct (exists_ (fs d)) eqn:Hex.
  - destruct (read_tags (fs d)) as [tags|e] eqn:Hread.
    + destruct (rebuild_reads_labels d tags Hex Hread)
        as (d' & Hrun & Hlab & Hfs & _).
      exists d'. repeat split; try assumption.
      revert Hrun. unfold _rebuild_buttons. cbv zeta.
      destruct (discard_all_frame (buttons d) d)
        as (Hc1 & _ & _ & _ & _ & Hfs1 & _).
      cbn [set_buttons fs]. rewrite Hfs1, Hex, Hread. cbn [negb].
      destruct (add_buttons_frame tags
                  (set_buttons (foldl discard d (buttons d)) []))
        as (_ & Hc3 & _ & _).
      rewrite Hc3. cbn [set_buttons _combo]. rewrite Hc1.
      destruct (truthy_combo (_combo d)); intros H; injection H as <-; cbn;
        rewrite ?Hc3; cbn; rewrite ?Hc1; reflexivity.
    + unfold _rebuild_buttons. cbv zeta.
      destruct (discard_all_frame (buttons d) d)
        as (Hc1 & _ & _ & _ & _ & Hfs1 & _).
      cbn [set_buttons fs]. rewrite Hfs1, Hex, Hread. cbn [negb].
      eexists. split; [reflexivity|]. cbn. repeat split; assumption.
  - unfold _rebuild_buttons. cbv zeta.
    destruct (discard_all_frame (buttons d) d)
      as (Hc1 & _ & _ & _ & _ & Hfs1 & _).
    cbn [set_buttons fs]. rewrite Hfs1, Hex. cbn [negb].
    eexists. split; [reflexivity|]. cbn. repeat split; assumption.
Qed.

(** X15: [_on_tags_changed] always returns, and running it a second time
    changes neither the mirror file nor the labels on the buttons:
    buttons do not pile up. *)
Theorem tags_changed_twice_is_once (d : t) :
  exists d1 d2 : t,
    _on_tags_changed d = Ok d1
    /\ _on_tags_changed d1 = Ok d2
    /\ Mirror.button_labels d2 = Mirror.button_labels d1
    /\ length (buttons d2) = length (buttons d1)
    /\ fs d2 = fs d1.
Proof.
  assert (Hrun : forall d0 : t,
             exists d0' : t,
               _on_tags_changed d0 = Ok d0'
               /\ _combo d0' = _combo d0
               /\ fs d0' =
                    match truthy_combo (_combo d0) with
                    | Some c => fst (write_tags (fs d0) (combo_items c))
                    | None => fs d0
                    end
               /\ map text (buttons d0') = Selection.labels_on_file (fs d0')).
  { intros d0. unfold _on_tags_changed.
    destruct (truthy_combo (_combo d0)) as [c|] eqn:Hc.
    - rewrite (sync_tags_unfold d0 c Hc). cbn [mbind result_bind].
      set (d0s := match snd (write_tags (fs d0) (combo_items c)) with
                  | Ok _ => _ | Raise e => _ end).
      assert (Hs : fs d0s = fst (write_tags (fs d0) (combo_items c))
                   /\ _combo d0s = _combo d0).
      { unfold d0s. destruct (snd (write_tags (fs d0) (combo_items c)));
          cbn; split; reflexivity. }
      destruct Hs as [Hfs Hcs].
      destruct (rebuild_shows_file d0s) as (d' & Hr & Hlab & Hfs' & Hc').
      exists d'. rewrite Hfs', Hc', Hcs, Hfs in *. repeat split; assumption.
    - unfold _sync_tags_from_krita. rewrite Hc. cbn [mbind result_bind].
      destruct (rebuild_shows_file d0) as (d' & Hr & Hlab & Hfs' & Hc').
      exists d'. rewrite Hfs', Hc' in *. repeat split; assumption. }
  destruct (Hrun d) as (d1 & Hr1 & Hc1 & Hfs1 & Hlab1).
  destruct (Hrun d1) as (d2 & Hr2 & Hc2 & Hfs2 & Hlab2).
  exists d1, d2. split; [exact Hr1|]. split; [exact Hr2|].
  assert (Hfs : fs d2 = fs d1).
  { rewrite Hfs2, Hc1. destruct (truthy_combo (_combo d)) as [c|];
      [|reflexivity].
    rewrite Hfs1, write_tags_twice. reflexivity. }
  unfold Mirror.button_labels.
  split; [rewrite Hlab2, Hlab1, Hfs; reflexivity|].
  split; [|exact Hfs].
  rewrite <- (length_map text (buttons d2)), <- (length_map text (buttons d1)).
  rewrite Hlab2, Hlab1, Hfs. reflexivity.
Qed.

End DockerMore.

(** ** What a read can give *)

Section ReadLabels.

(** [lstrip] drops a prefix; what is left does not start with white
    space. *)
Lemma lstrip_suffix (s : str) : exists a, s = a ++ lstrip s.
Proof.
  induction s as [|c s [a IH]]; [exists []; reflexivity|].
  cbn [lstrip]. destruct (isspace c).
  - exists (c :: a). cbn. rewrite <- IH. reflexivity.
  - exists []. reflexivity.
Qed.

Lemma lstrip_head_not_space (s : str) (c : N) :
  head (lstrip s) = Some c -> isspace c = false.
Proof.
  induction s as [|d s IH]; [discriminate|].
  cbn [lstrip]. destruct (isspace d) eqn:Hd; [exact IH|].
  cbn. intros H. injection H as <-. exact Hd.
Qed.

Lemma rstrip_prefix (s : str) : exists b, s = rstrip s ++ b.
Proof.
  unfold rstrip. destruct (lstrip_suffix (reverse s)) as [a Ha].
  exists (reverse a).
  rewrite <- reverse_app, <- Ha, reverse_involutive. reflexivity.
Qed.

Lemma rstrip_last_not_space (s : str) (c : N) :
  last (rstrip s) = Some c -> isspace c = false.
Proof.
  unfold rstrip. rewrite last_reverse. apply lstrip_head_not_space.
Qed.

(** What [strip] returns is a piece of the string. *)
Lemma strip_piece (s : str) : exists a b, s = a ++ strip s ++ b.
Proof.
  unfold strip. destruct (lstrip_suffix s) as [a Ha].
  destruct (rstrip_prefix (lstrip s)) as [b Hb].
  exists a, b. rewrite <- Hb. exact Ha.
Qed.

Lemma strip_Forall (P : N -> Prop) (s : str) :
  Forall P s -> Forall P (strip s).
Proof.
  intros H. destruct (strip_piece s) as (a & b & Hs).
  rewrite Hs in H. apply Forall_app in H as [_ H].
  apply Forall_app in H as [H _]. exact H.
Qed.

(** A stripped string is empty or trimmed. *)
Lemma strip_is_trimmed (s : str) : strip s <> [] -> Mirror.trimmed (strip s).
Proof.
  intros Hne. split; [exact Hne|]. split.
  - intros c Hc. unfold strip in *.
    destruct (rstrip_prefix (lstrip s)) as [b Hb].
    apply (lstrip_head_not_space s c). rewrite Hb.
    destruct (rstrip (lstrip s)); [contradiction | exact Hc].
  - intros c Hc. apply (rstrip_last_not_space (lstrip s) c Hc).
Qed.

(** After universal newlines no carriage return is left. *)
Lemma newline_in_no_CR (s : str) :
  Forall (fun c => c <> CR) (newline_in s)
  /\ forall c, Forall (fun c => c <> CR) (newline_in (c :: s)).
Proof.
  induction s as [|d s [IH1 IH2]].
  - split; [constructor|]. intros c. cbn [newline_in].
    destruct (N.eqb_spec c CR); repeat constructor; [discriminate|assumption].
  - split; [apply IH2|]. intros c. cbn [newline_in].
    destruct (N.eqb_spec c CR).
    + destruct (N.eqb_spec d LF); constructor;
        try discriminate; [exact IH1 | apply IH2].
    + constructor; [assumption | apply IH2].
Qed.

(** A line of the file has its line feed at the end or not at all, and
    is made of characters of the text. *)
Lemma readlines_shape (P : N -> Prop) (s : str) :
  Forall P s ->
  Forall (fun l => Forall P l
                   /\ exists body, (l = body ++ [LF] \/ l = body)
                                   /\ Forall (fun c => c <> LF) body)
         (readlines s).
Proof.
  induction 1 as [|c s Hc Hs IH]; [constructor|].
  cbn [readlines]. destruct (N.eqb_spec c LF) as [->|Hne].
  - constructor; [|exact IH]. split; [repeat constructor; exact Hc|].
    exists []. split; [left; reflexivity | constructor].
  - destruct (readlines s) as [|l ls].
    + constructor; [|constructor]. split; [repeat constructor; exact Hc|].
      exists [c]. split; [right; reflexivity | repeat constructor; exact Hne].
    + apply Forall_cons in IH as [(Hl & body & Hbody & Hlf) IH].
      constructor; [|exact IH]. split; [constructor; assumption|].
      exists (c :: body). split.
      * destruct Hbody as [->| ->]; [left | right]; reflexivity.
      * constructor; assumption.
Qed.

(** X16: whatever the mirror file holds, every label a successful read
    gives is non-empty, has no white space at either end and contains no
    line break. *)
Theorem labels_read_are_trimmed_lines (f : filesystem) (tags : list str) :
  read_tags f = Ok tags ->
  Forall (fun l => Mirror.trimmed l
                   /\ Forall (fun c => c <> LF /\ c <> CR) l) tags.
Proof.
  unfold read_tags. destruct (readable f); [|discriminate].
  destruct (tags_txt f) as [|text|]; try discriminate.
  intros H. injection H as <-.
  pose proof (readlines_shape (fun c => c <> CR) (newline_in text)
                (proj1 (newline_in_no_CR text))) as Hlines.
  induction Hlines as [|l ls (Hcr & body & Hbody & Hlf) _ IH];
    [constructor|].
  cbn [List.filter]. destruct (truthy (strip l)) eqn:Ht; [|exact IH].
  cbn [map]. constructor; [|exact IH]. split.
  - apply strip_is_trimmed. intros Hnil. rewrite Hnil in Ht. discriminate.
  - assert (Hs : strip l = strip body).
    { destruct Hbody as [->| ->]; [apply strip_line | reflexivity]. }
    assert (Hbcr : Forall (fun c => c <> CR) body).
    { destruct Hbody as [->| ->]; [|exact Hcr].
      apply Forall_app in Hcr as [Hcr _]. exact Hcr. }
    rewrite Hs. apply strip_Forall.
    rewrite Forall_forall in Hlf, Hbcr. apply Forall_forall.
    intros c Hc. split; [apply Hlf | apply Hbcr]; exact Hc.
Qed.

Lemma labels_read_are_trimmed_lines_witness :
  Forall (fun l => Mirror.trimmed l
                   /\ Forall (fun c => c <> LF /\ c <> CR) l)
         [Mirror.label "Ink"; Mirror.label "Wet paint"].
Proof.
  apply (labels_read_are_trimmed_lines
           (mkFs (Utf8 ([32; 73; 110; 107; 13; 10; 10; 9]
                        ++ Mirror.label "Wet paint")%N)
                 true true Posix)).
  reflexivity.
Defined.

End ReadLabels.

(** ** Widgets in order *)

Section Widgets.

Import BrushTagSelectorDocker.

Lemma lookup_map {A B : Type} (f : A -> B) (l : list A) (i : nat) :
  map f l !! i = option_map f (l !! i).
Proof. exact (list_lookup_fmap f l i). Qed.

Lemma setChecked_fields (bs : list QPushButton) (b : QPushButton) (v : bool) :
  map wid (setChecked bs b v) = map wid bs
  /\ map checkable (setChecked bs b v) = map checkable bs.
Proof.
  unfold setChecked.
  destruct (negb (checkable b) || eqb (checked b) v); [split; reflexivity|].
  destruct (negb v); [split; reflexivity|].
  rewrite !map_map. split; reflexivity.
Qed.

Lemma setChecked_exclusive (bs : list QPushButton) (b : QPushButton)
    (v : bool) :
  NoDup (map wid bs) ->
  Selection.at_most_one_checked bs ->
  Selection.at_most_one_checked (setChecked bs b v).
Proof.
  intros Hnd Hone. unfold setChecked.
  destruct (negb (checkable b) || eqb (checked b) v); [exact Hone|].
  destruct (negb v); [exact Hone|].
  intros i j x y Hi Hj Hx Hy.
  rewrite lookup_map in Hi, Hj.
  destruct (bs !! i) as [x0|] eqn:Ei; [|discriminate].
  destruct (bs !! j) as [y0|] eqn:Ej; [|discriminate].
  cbn in Hi, Hj. injection Hi as <-. injection Hj as <-.
  cbn in Hx, Hy. apply Nat.eqb_eq in Hx, Hy.
  apply (NoDup_lookup (map wid bs) i j (wid x0)); [exact Hnd| |].
  - rewrite lookup_map, Ei. reflexivity.
  - rewrite lookup_map, Ej. cbn. rewrite Hy, <- Hx. reflexivity.
Qed.

Lemma sync_loop_fields (txt : str) (idx : list nat) :
  forall bs : list QPushButton,
    map wid (foldl (Selection.check_matching txt) bs idx) = map wid bs
    /\ map checkable (foldl (Selection.check_matching txt) bs idx)
         = map checkable bs
    /\ (NoDup (map wid bs) ->
        Selection.at_most_one_checked bs ->
        Selection.at_most_one_checked
          (foldl (Selection.check_matching txt) bs idx)).
Proof.
  induction idx as [|i idx IH]; intros bs; cbn [foldl].
  - repeat split. intros _ H; exact H.
  - destruct (IH (Selection.check_matching txt bs i)) as (Hw & Hc & Hone).
    assert (Hstep : map wid (Selection.check_matching txt bs i) = map wid bs
                    /\ map checkable (Selection.check_matching txt bs i)
                         = map checkable bs
                    /\ (NoDup (map wid bs) ->
                        Selection.at_most_one_checked bs ->
                        Selection.at_most_one_checked
                          (Selection.check_matching txt bs i))).
    { unfold Selection.check_matching. destruct (bs !! i) as [b|].
      - destruct (setChecked_fields bs b (bool_decide (text b = txt)))
          as [H1 H2].
        repeat split; try assumption. apply setChecked_exclusive.
      - repeat split. intros _ H; exact H. }
    destruct Hstep as (Hw1 & Hc1 & Hone1).
    rewrite Hw, Hc, Hw1, Hc1. repeat split.
    intros Hnd H.
    apply Hone; [rewrite Hw1; exact Hnd | apply Hone1; assumption].
Qed.

Lemma sync_button_state_unfold (d : t) (txt : str) :
  buttons (_sync_button_state d txt)
    = foldl (Selection.check_matching txt) (buttons d)
            (seq 0 (length (buttons d))).
Proof. reflexivity. Qed.

Lemma well_formed_sync (d : t) (txt : str) :
  Selection.well_formed d ->
  Selection.well_formed (_sync_button_state d txt).
Proof.
  intros (Hflow & Hnd & Hall & Hone). unfold Selection.well_formed.
  rewrite sync_button_state_unfold.
  destruct (sync_loop_fields txt (seq 0 (length (buttons d))) (buttons d))
    as (Hw & Hc & Hex).
  rewrite Hw. cbn [_sync_button_state set_buttons flow fresh].
  split; [exact Hflow|]. split; [exact Hnd|]. split; [|apply Hex; assumption].
  apply Forall_forall. intros b Hb.
  apply list_elem_of_lookup in Hb as [i Hi].
  assert (Hwi : map wid (buttons d) !! i = Some (wid b))
    by (rewrite <- Hw, lookup_map, Hi; reflexivity).
  assert (Hci : map checkable (buttons d) !! i = Some (checkable b))
    by (rewrite <- Hc, lookup_map, Hi; reflexivity).
  rewrite lookup_map in Hwi. rewrite lookup_map in Hci.
  destruct (buttons d !! i) as [b0|] eqn:E0; [|discriminate].
  cbn in Hwi, Hci. injection Hwi as Hwi. injection Hci as Hci.
  rewrite Forall_forall in Hall.
  destruct (Hall b0) as [Hlt Hck]; [eapply list_elem_of_lookup_2, E0|].
  rewrite <- Hwi, <- Hci. split; assumption.
Qed.

Lemma well_formed_add_button (d : t) (tag : str) :
  Selection.well_formed d ->
  Selection.well_formed (add_button d tag)
  /\ (Forall (fun b => checked b = false) (buttons d) ->
      Forall (fun b => checked b = false) (buttons (add_button d tag))).
Proof.
  intros (Hflow & Hnd & Hall & Hone).
  unfold Selection.well_formed, add_button. cbn.
  rewrite map_app. cbn [map wid].
  split; [split; [|split; [|split]]|].
  - rewrite Hflow. reflexivity.
  - apply NoDup_app. split; [exact Hnd|]. split; [|apply NoDup_singleton].
    intros w Hw Hw'. apply list_elem_of_singleton in Hw'. subst w.
    apply list_elem_of_fmap in Hw as (b & Hb & Hin).
    rewrite Forall_forall in Hall. destruct (Hall b Hin) as [Hlt _]. lia.
  - apply Forall_app. split.
    + eapply Forall_impl; [exact Hall|]. cbn. intros b [Hlt Hc].
      split; [lia | exact Hc].
    + repeat constructor.
  - intros i j a b Hi Hj Ha Hb.
    apply lookup_snoc_Some in Hi as [[Hli Hi]|[Hli Hi]];
      apply lookup_snoc_Some in Hj as [[Hlj Hj]|[Hlj Hj]].
    + apply (Hone i j a b); assumption.
    + subst b. discriminate Hb.
    + subst a. discriminate Ha.
    + lia.
  - intros Hun. apply Forall_app. split; [exact Hun|]. repeat constructor.
Qed.

Lemma well_formed_add_buttons (tags : list str) :
  forall d : t,
    Selection.well_formed d ->
    Selection.well_formed (foldl add_button d tags).
Proof.
  induction tags as [|tag tags IH]; intros d Hwf; [exact Hwf|].
  cbn [foldl]. apply IH. apply well_formed_add_button, Hwf.
Qed.

(** Once the buttons are discarded and the list is cleared, nothing of
    them is left in the flow layout. *)
Lemma well_formed_cleared (d : t) :
  flow d = map wid (buttons d) ->
  Selection.well_formed (set_buttons (foldl discard d (buttons d)) []).
Proof.
  intros Hflow. unfold Selection.well_formed. cbn [set_buttons buttons flow].
  split; [|split; [constructor|split; [constructor|]]].
  - cbn [map]. destruct (flow (foldl discard d (buttons d))) as [|w ws] eqn:E;
      [reflexivity|].
    exfalso.
    destruct (discard_all_flow (buttons d) d w) as [Hin Hne].
    { rewrite E. left. reflexivity. }
    rewrite Hflow in Hin. apply in_map_iff in Hin as (b & Hb & Hin).
    exact (Hne b Hin Hb).
  - intros i j a b Hi. discriminate Hi.
Qed.

Lemma well_formed_print (d : t) (m : message) :
  Selection.well_formed d -> Selection.well_formed (print d m).
Proof. intros H; exact H. Qed.

Lemma well_formed_rebuild (d d' : t) :
  flow d = map wid (buttons d) ->
  _rebuild_buttons d = Ok d' ->
  Selection.well_formed d'.
Proof.
  intros Hflow. pose proof (well_formed_cleared d Hflow) as Hwf.
  unfold _rebuild_buttons. cbv zeta.
  set (d2 := set_buttons (foldl discard d (buttons d)) []) in *.
  destruct (negb (exists_ (fs d2))).
  - intros H; injection H as <-. exact Hwf.
  - destruct (read_tags (fs d2)) as [tags|e].
    + pose proof (well_formed_add_buttons tags d2 Hwf) as Hwf3.
      destruct (truthy_combo (_combo (foldl add_button d2 tags)));
        intros H; injection H as <-; [apply well_formed_sync|]; exact Hwf3.
    + intros H; injection H as <-. exact Hwf.
Qed.

(** X17: the docker keeps its widgets in order.  It starts that way, and
    after [_on_tags_changed] (and after [_rebuild_buttons] alone) the flow
    layout holds exactly the current buttons, in order, the buttons are
    distinct widgets, all checkable, and at most one of them is
    checked. *)
Theorem widgets_stay_in_order (f : filesystem) (d d' : t) :
  Selection.well_formed (__init__ f)
  /\ (Selection.well_formed d ->
      _on_tags_changed d = Ok d' -> Selection.well_formed d')
  /\ (Selection.well_formed d ->
      _rebuild_buttons d = Ok d' -> Selection.well_formed d').
Proof.
  split; [|split].
  - unfold Selection.well_formed, __init__. cbn.
    repeat split; try constructor. intros i j a b Hi. discriminate Hi.
  - intros (Hflow & _) Hrun. unfold _on_tags_changed in Hrun.
    destruct (truthy_combo (_combo d)) as [c|] eqn:Hc.
    + rewrite (sync_tags_unfold d c Hc) in Hrun.
      cbn [mbind result_bind] in Hrun.
      revert Hrun. apply well_formed_rebuild.
      destruct (snd (write_tags (fs d) (combo_items c))); exact Hflow.
    + unfold _sync_tags_from_krita in Hrun. rewrite Hc in Hrun.
      cbn [mbind result_bind] in Hrun.
      revert Hrun. apply well_formed_rebuild, Hflow.
  - intros (Hflow & _). apply well_formed_rebuild, Hflow.
Qed.

Lemma widgets_stay_in_order_witness :
  Selection.well_formed
    (mk (Some (mkCombo [Mirror.label "Ink"; Mirror.label "Wet"] 1))
        [mkButton 0 (Mirror.label "Ink") true false;
         mkButton 1 (Mirror.label "Wet") true true]
        [0%nat; 1%nat] [0%nat; 1%nat] [] 2
        (mkFs (Utf8 (Mirror.label "Ink" ++ [LF] ++ Mirror.label "Wet" ++ [LF]))
              true true Posix)
        []).
Proof.
  destruct (widgets_stay_in_order
              (mkFs NoFile true true Posix)
              (Mirror.fresh_docker
                 (mkCombo [Mirror.label "Ink"; Mirror.label "Wet"] 1))
              (mk (Some (mkCombo [Mirror.label "Ink"; Mirror.label "Wet"] 1))
                  [mkButton 0 (Mirror.label "Ink") true false;
                   mkButton 1 (Mirror.label "Wet") true true]
                  [0%nat; 1%nat] [0%nat; 1%nat] [] 2
                  (mkFs (Utf8 (Mirror.label "Ink" ++ [LF]
                               ++ Mirror.label "Wet" ++ [LF]))
                        true true Posix)
                  []))
    as (_ & H & _).
  apply H.
  - unfold Selection.well_formed. cbn.
    repeat split; try constructor. intros i j a b Hi. discriminate Hi.
  - vm_compute. reflexivity.
Defined.

End Widgets.

(** ** Buttons follow the selector *)

Section FollowSelector.

Import BrushTagSelectorDocker.

(** A button whose label is not the text is left alone, and so is the
    rest of the list. *)
Lemma no_match_loop (txt : str) (idx : list nat) :
  forall bs : list QPushButton,
    (forall i b, In i idx -> bs !! i = Some b -> text b <> txt) ->
    foldl (Selection.check_matching txt) bs idx = bs.
Proof.
  induction idx as [|i idx IH]; intros bs Hno; [reflexivity|].
  cbn [foldl].
  assert (Hstep : Selection.check_matching txt bs i = bs).
  { unfold Selection.check_matching. destruct (bs !! i) as [b|] eqn:Ei;
      [|reflexivity].
    rewrite bool_decide_eq_false_2 by (apply (Hno i b); [left|]; easy).
    unfold setChecked.
    destruct (negb (checkable b) || eqb (checked b) false); reflexivity. }
  rewrite Hstep. apply IH. intros j b Hj. apply Hno. right. exact Hj.
Qed.

(** X18: when exactly one button carries the text, [_sync_button_state]
    leaves that button checked and every other button unchecked
    (for a docker whose widgets are in order). *)
Theorem sync_checks_the_matching_button (d : t) (txt : str) (k : nat)
    (b : QPushButton) :
  Selection.well_formed d ->
  buttons d !! k = Some b ->
  text b = txt ->
  (forall j b', buttons d !! j = Some b' -> text b' = txt -> j = k) ->
  forall j b',
    buttons (_sync_button_state d txt) !! j = Some b' ->
    (checked b' = true <-> j = k).
Proof.
  intros (_ & Hnd & Hall & Hone) Hk Htxt Huniq j b' Hj.
  rewrite sync_button_state_unfold in Hj.
  set (bs := buttons d) in *.
  assert (Hlen : (k < length bs)%nat) by (eapply lookup_lt_Some, Hk).
  replace (length bs) with (k + S (length bs - S k))%nat in Hj by lia.
  rewrite seq_app, foldl_app in Hj. cbn [seq foldl Nat.add] in Hj.
  rewrite (no_match_loop txt (seq 0 k) bs) in Hj.
  2:{ intros i x Hi Hx Hmatch. apply in_seq in Hi.
      specialize (Huniq i x Hx Hmatch). lia. }
  assert (Hstep : Selection.check_matching txt bs k = setChecked bs b true).
  { unfold Selection.check_matching. rewrite Hk.
    rewrite bool_decide_eq_true_2 by exact Htxt. reflexivity. }
  rewrite Hstep in Hj.
  rewrite no_match_loop in Hj.
  2:{ intros i x Hi Hx Hmatch. apply in_seq in Hi.
      assert (Hti : map text bs !! i = Some (text x)).
      { rewrite <- (setChecked_text bs b true), lookup_map, Hx. reflexivity. }
      rewrite lookup_map in Hti.
      destruct (bs !! i) as [x0|] eqn:E0; [|discriminate].
      cbn in Hti. injection Hti as Hti.
      specialize (Huniq i x0 E0). rewrite Hti in Huniq.
      specialize (Huniq Hmatch). lia. }
  assert (Hck : checkable b = true).
  { rewrite Forall_forall in Hall.
    apply (Hall b). eapply list_elem_of_lookup_2, Hk. }
  unfold setChecked in Hj. rewrite Hck in Hj. cbn [negb orb] in Hj.
  destruct (checked b) eqn:Hb; cbn [eqb negb] in Hj.
  - split.
    + intros Hc. apply (Hone j k b' b); assumption.
    + intros ->. rewrite Hk in Hj. injection Hj as <-. exact Hb.
  - rewrite lookup_map in Hj.
    destruct (bs !! j) as [x0|] eqn:E0; [|discriminate].
    cbn in Hj. injection Hj as <-. cbn. rewrite Nat.eqb_eq. split.
    + intros Hw. apply (NoDup_lookup (map wid bs) j k (wid x0)); [exact Hnd| |].
      * rewrite lookup_map, E0. reflexivity.
      * rewrite lookup_map, Hk. cbn. rewrite Hw. reflexivity.
    + intros ->. rewrite Hk in E0. injection E0 as <-. reflexivity.
Qed.

Lemma sync_checks_the_matching_button_witness :
  checked (mkButton 1 (Mirror.label "Wet") true true) = true <-> 1%nat = 1%nat.
Proof.
  apply (sync_checks_the_matching_button
           (mk None
               [mkButton 0 (Mirror.label "Ink") true true;
                mkButton 1 (Mirror.label "Wet") true false]
               [0%nat; 1%nat] [0%nat; 1%nat] [] 2
               (mkFs NoFile true true Posix) [])
           (Mirror.label "Wet") 1
           (mkButton 1 (Mirror.label "Wet") true false)).
  - unfold Selection.well_formed. cbn. split; [reflexivity|].
    split; [apply (bool_decide_unpack _); vm_compute; exact I|].
    split; [repeat constructor|].
    intros [|[|i]] [|[|j]] a b; cbn; intros Ha Hb; try discriminate;
      try reflexivity; injection Ha as <-; injection Hb as <-;
      discriminate.
  - reflexivity.
  - reflexivity.
  - intros [|[|j]] b'; cbn; intros Hb; try discriminate;
      injection Hb as <-; [discriminate | reflexivity].
  - reflexivity.
Defined.

(** ** The selector follows the buttons *)

(** What [find] returns is the first element that passes the test. *)
Lemma find_first {A : Type} (f : A -> bool) (l : list A) (x : A) :
  List.find f l = Some x ->
  exists k : nat,
    l !! k = Some x /\ f x = true
    /\ forall j y, (j < k)%nat -> l !! j = Some y -> f y = false.
Proof.
  induction l as [|a l IH]; [discriminate|].
  cbn [List.find]. destruct (f a) eqn:Ha.
  - intros H. injection H as <-. exists 0%nat.
    split; [reflexivity|]. split; [exact Ha|]. intros j y Hj. lia.
  - intros H. destruct (IH H) as (k & Hk & Hx & Hfirst).
    exists (S k). split; [exact Hk|]. split; [exact Hx|].
    intros [|j] y Hj Hy.
    + injection Hy as <-. exact Ha.
    + apply (Hfirst j y); [lia | exact Hy].
Qed.

Lemma itemText_in_range (c : QComboBox) (n : nat) (s : str) :
  combo_items c !! n = Some s -> itemText c (Z.of_nat n) = s.
Proof.
  intros Hn. unfold itemText, combo_count.
  assert (n < length (combo_items c))%nat by (eapply lookup_lt_Some, Hn).
  destruct (Z.leb_spec 0 (Z.of_nat n)); [|lia].
  destruct (Z.ltb_spec (Z.of_nat n) (Z.of_nat (length (combo_items c))));
    [|lia].
  cbn [andb]. rewrite Nat2Z.id, Hn. reflexivity.
Qed.

(** The row of a button is the first row with its label, and there is
    one exactly when the label is among the selector's items. *)
Lemma row_of_Some (c : QComboBox) (btn : QPushButton) (i : Z) :
  Selection.row_of c btn = Some i ->
  0 <= i < combo_count c
  /\ itemText c i = text btn
  /\ combo_items c !! Z.to_nat i = Some (text btn)
  /\ forall j, 0 <= j < i -> itemText c j <> text btn.
Proof.
  intros H. apply find_first in H as (k & Hk & Hi & Hfirst).
  apply lookup_seqZ in Hk as [-> Hk]. apply bool_decide_eq_true_1 in Hi.
  assert (Hrange : 0 <= 0 + Z.of_nat k < combo_count c) by lia.
  split; [exact Hrange|]. split; [exact Hi|]. split.
  - destruct (lookup_lt_is_Some_2 (combo_items c) k) as [s Hs].
    { unfold combo_count in Hk. lia. }
    replace (Z.to_nat (0 + Z.of_nat k)) with k by lia.
    rewrite Hs. f_equal. rewrite <- Hi.
    replace (0 + Z.of_nat k) with (Z.of_nat k) by lia.
    symmetry. apply itemText_in_range, Hs.
  - intros j Hj Hmatch.
    assert (Hf : bool_decide (itemText c j = text btn) = false).
    { apply (Hfirst (Z.to_nat j) j); [lia|].
      apply lookup_seqZ. split; lia. }
    apply bool_decide_eq_false_1 in Hf. contradiction.
Qed.

Lemma row_of_None (c : QComboBox) (btn : QPushButton) :
  Selection.row_of c btn = None -> ~ In (text btn) (combo_items c).
Proof.
  intros H Hin. unfold Selection.row_of in H.
  apply list_elem_of_In, list_elem_of_lookup in Hin as [n Hn].
  pose proof (List.find_none _ _ H (Z.of_nat n)) as Hf. cbn in Hf.
  rewrite (itemText_in_range c n _ Hn) in Hf.
  rewrite bool_decide_eq_true_2 in Hf by reflexivity.
  assert (Hseq : In (Z.of_nat n) (seqZ 0 (combo_count c))).
  { apply list_elem_of_In, list_elem_of_lookup. exists n.
    apply lookup_seqZ. apply lookup_lt_Some in Hn.
    unfold combo_count. split; lia. }
  specialize (Hf Hseq). discriminate Hf.
Qed.

(** X19: clicking a button whose label is among the selector's items
    makes the first row with that label the current one, so that the
    selector's current text is the button's label; the items, the
    buttons and the rest of the docker are as before, and [_changing] is
    false again: the change of the selector does not come back to the
    buttons. *)
Theorem click_selects_the_first_matching_row (s : Selection.t)
    (btn : QPushButton) (c : QComboBox) :
  _combo (Selection.docker s) = Some c ->
  In (text btn) (combo_items c) ->
  exists c' : QComboBox,
    Selection._on_button_clicked s btn =
      Selection.mk (Selection.set_combo (Selection.docker s) c') false
    /\ combo_items c' = combo_items c
    /\ currentText c' = text btn
    /\ 0 <= currentIndex c' < combo_count c
    /\ (forall j, 0 <= j < currentIndex c' -> itemText c j <> text btn).
Proof.
  intros Hc Hin.
  assert (Htruth : truthy_combo (_combo (Selection.docker s)) = Some c).
  { apply truthy_combo_Some. split; [exact Hc|].
    intros Hnil. rewrite Hnil in Hin. destruct Hin. }
  unfold Selection._on_button_clicked. rewrite Htruth.
  destruct (Selection.row_of c btn) as [i|] eqn:Hrow.
  2:{ exfalso. exact (row_of_None c btn Hrow Hin). }
  destruct (row_of_Some c btn i Hrow) as ([H0 H1] & Hi & _ & Hfirst).
  unfold Selection.setCurrentIndex.
  destruct (Z.leb_spec 0 i); [|lia].
  destruct (Z.ltb_spec i (combo_count c)); [|lia]. cbn [andb].
  destruct (Z.eqb_spec i (currentIndex c)) as [Hcur|Hcur].
  - exists c. split; [reflexivity|]. split; [reflexivity|].
    unfold currentText. rewrite <- Hcur.
    split; [exact Hi|]. split; [lia | exact Hfirst].
  - exists (mkCombo (combo_items c) i). split; [reflexivity|].
    split; [reflexivity|]. unfold currentText. cbn [currentIndex].
    split; [exact Hi|]. split; [lia | exact Hfirst].
Qed.

Lemma click_selects_the_first_matching_row_witness :
  exists c' : QComboBox,
    Selection._on_button_clicked
      (Selection.mk
         (Mirror.fresh_docker
            (mkCombo [Mirror.label "Ink"; Mirror.label "Wet"] 0)) false)
      (mkButton 7 (Mirror.label "Wet") true true)
    = Selection.mk
        (Selection.set_combo
           (Mirror.fresh_docker
              (mkCombo [Mirror.label "Ink"; Mirror.label "Wet"] 0)) c')
        false
    /\ currentText c' = Mirror.label "Wet".
Proof.
  destruct (click_selects_the_first_matching_row
              (Selection.mk
                 (Mirror.fresh_docker
                    (mkCombo [Mirror.label "Ink"; Mirror.label "Wet"] 0))
                 false)
              (mkButton 7 (Mirror.label "Wet") true true)
              (mkCombo [Mirror.label "Ink"; Mirror.label "Wet"] 0))
    as (c' & Hrun & _ & Htxt & _).
  - reflexivity.
  - right. left. reflexivity.
  - exists c'. split; [exact Hrun | exact Htxt].
Defined.

(** X20: a click changes nothing at all when the docker has not found
    the selector, or when no row of the selector carries the button's
    label. *)
Theorem click_without_a_row_changes_nothing (s : Selection.t)
    (btn : QPushButton) :
  (_combo (Selection.docker s) = None
   \/ exists c, _combo (Selection.docker s) = Some c
                /\ ~ In (text btn) (combo_items c)) ->
  Selection._on_button_clicked s btn = s.
Proof.
  intros [Hnone|(c & Hc & Hnot)]; unfold Selection._on_button_clicked.
  - rewrite Hnone. reflexivity.
  - destruct (truthy_combo (_combo (Selection.docker s))) as [c0|] eqn:Ht;
      [|reflexivity].
    apply truthy_combo_Some in Ht as [Ht _]. rewrite Hc in Ht.
    injection Ht as <-.
    destruct (Selection.row_of c btn) as [i|] eqn:Hrow; [|reflexivity].
    exfalso. apply Hnot.
    destruct (row_of_Some c btn i Hrow) as (_ & _ & Hitem & _).
    apply list_elem_of_In. eapply list_elem_of_lookup_2, Hitem.
Qed.

Lemma click_without_a_row_changes_nothing_witness :
  Selection._on_button_clicked
    (Selection.mk
       (Mirror.fresh_docker (mkCombo [Mirror.label "Ink"] 0)) false)
    (mkButton 7 (Mirror.label "Wet") true true)
  = Selection.mk
      (Mirror.fresh_docker (mkCombo [Mirror.label "Ink"] 0)) false.
Proof.
  apply (click_without_a_row_changes_nothing
           (Selection.mk
              (Mirror.fresh_docker (mkCombo [Mirror.label "Ink"] 0)) false)
           (mkButton 7 (Mirror.label "Wet") true true)).
  right. exists (mkCombo [Mirror.label "Ink"] 0). split; [reflexivity|].
  intros [H|[]]. vm_compute in H. discriminate H.
Defined.

End FollowSelector.

(** ** Old buttons and new buttons *)

Section Renewal.

Import BrushTagSelectorDocker.

(** Every button made gets the next widget identity and goes to the end
    of the flow layout; nothing is handed to [deleteLater]. *)
Lemma add_buttons_widgets (tags : list str) :
  forall d : t,
    map wid (buttons (foldl add_button d tags))
      = map wid (buttons d) ++ seq (fresh d) (length tags)
    /\ flow (foldl add_button d tags)
         = flow d ++ seq (fresh d) (length tags)
    /\ doomed (foldl add_button d tags) = doomed d.
Proof.
  induction tags as [|tag tags IH]; intros d; cbn [foldl length seq].
  - rewrite !app_nil_r. repeat split.
  - destruct (IH (add_button d tag)) as (-> & -> & ->).
    cbn. rewrite map_app, <- !app_assoc. repeat split.
Qed.

(** The widgets after [_rebuild_buttons]: every button is newly made,
    the flow layout holds what the discarding left and then the new
    buttons, and the earlier buttons are handed to [deleteLater]. *)
Lemma rebuild_widgets (d d' : t) :
  _rebuild_buttons d = Ok d' ->
  map wid (buttons d') = seq (fresh d) (length (buttons d'))
  /\ flow d' = flow (foldl discard d (buttons d)) ++ map wid (buttons d')
  /\ doomed d' = doomed d ++ map wid (buttons d).
Proof.
  unfold _rebuild_buttons. cbv zeta.
  destruct (discard_all_frame (buttons d) d)
    as (_ & _ & _ & Hd1 & Hf1 & _ & _).
  set (d1 := foldl discard d (buttons d)) in *.
  destruct (negb (exists_ (fs (set_buttons d1 [])))).
  - intros H. injection H as <-. cbn. rewrite app_nil_r. repeat split.
    exact Hd1.
  - destruct (read_tags (fs (set_buttons d1 []))) as [tags|e].
    + destruct (add_buttons_widgets tags (set_buttons d1 []))
        as (Hw & Hfl & Hdo).
      cbn [set_buttons buttons flow doomed fresh map app] in Hw, Hfl, Hdo.
      rewrite Hf1 in Hw, Hfl.
      assert (Hlen :
                length (buttons (foldl add_button (set_buttons d1 []) tags))
                = length tags).
      { rewrite <- (length_map wid), Hw, length_seq. reflexivity. }
      destruct (truthy_combo
                  (_combo (foldl add_button (set_buttons d1 []) tags)))
        as [combo|]; intros H; injection H as <-.
      * rewrite sync_button_state_unfold.
        destruct (sync_loop_fields (currentText combo)
                    (seq 0 (length (buttons
                       (foldl add_button (set_buttons d1 []) tags))))
                    (buttons (foldl add_button (set_buttons d1 []) tags)))
          as (Hsw & _ & _).
        assert (Hsl : length (foldl (Selection.check_matching
                                       (currentText combo))
                         (buttons (foldl add_button (set_buttons d1 []) tags))
                         (seq 0 (length (buttons
                            (foldl add_button (set_buttons d1 []) tags)))))
                      = length tags).
        { rewrite <- (length_map wid), Hsw, Hw, length_seq. reflexivity. }
        rewrite Hsw, Hsl. cbn [_sync_button_state set_buttons flow doomed].
        rewrite Hw, Hfl, Hdo, Hd1. repeat split.
      * rewrite Hlen, Hw, Hfl, Hdo, Hd1. repeat split.
    + intros H. injection H as <-. cbn. rewrite app_nil_r. repeat split.
      exact Hd1.
Qed.

(** X14: [_rebuild_buttons] always returns, and what the buttons show
    afterwards depends on the mirror file alone: one button per label
    read from the file, in order, and no button when the file is missing
    or unreadable; the file is left alone.  No earlier button survives:
    every button afterwards is a widget made by this call, every earlier
    button is handed to [deleteLater], and none of them is left among
    the buttons or in the flow layout. *)
Theorem rebuilt_buttons_show_the_file (d : t) :
  exists d' : t,
    _rebuild_buttons d = Ok d'
    /\ Mirror.button_labels d' = Selection.labels_on_file (fs d)
    /\ length (buttons d') = length (Selection.labels_on_file (fs d))
    /\ fs d' = fs d
    /\ map wid (buttons d')
         = seq (fresh d) (length (Selection.labels_on_file (fs d)))
    /\ doomed d' = doomed d ++ map wid (buttons d)
    /\ (forall b, In b (buttons d) -> (wid b < fresh d)%nat ->
          ~ In (wid b) (map wid (buttons d')) /\ ~ In (wid b) (flow d')).
Proof.
  destruct (rebuild_shows_file d) as (d' & Hrun & Hlab & Hfs & _).
  destruct (rebuild_widgets d d' Hrun) as (Hw & Hfl & Hdo).
  assert (Hlen : length (buttons d')
                 = length (Selection.labels_on_file (fs d))).
  { rewrite <- Hlab, length_map. reflexivity. }
  exists d'. split; [exact Hrun|]. split; [exact Hlab|].
  split; [exact Hlen|]. split; [exact Hfs|].
  split; [rewrite Hw, Hlen; reflexivity|]. split; [exact Hdo|].
  intros b Hb Hold.
  assert (Hnew : ~ In (wid b) (map wid (buttons d'))).
  { rewrite Hw. intros Hin. apply in_seq in Hin. lia. }
  split; [exact Hnew|].
  rewrite Hfl. intros Hin. apply in_app_iff in Hin as [Hin|Hin].
  - apply discard_all_flow in Hin as [_ Hne]. exact (Hne b Hb eq_refl).
  - exact (Hnew Hin).
Qed.

Lemma rebuilt_buttons_show_the_file_witness :
  exists d' : t,
    _rebuild_buttons
      (mk None [mkButton 0 (Mirror.label "Old") true true] [0%nat] [0%nat]
          [] 1 (mkFs (Utf8 (Mirror.label "Ink" ++ [LF])) true true Posix) [])
      = Ok d'
    /\ Mirror.button_labels d' = [Mirror.label "Ink"]
    /\ map wid (buttons d') = [1%nat]
    /\ flow d' = [1%nat].
Proof.
  destruct (rebuilt_buttons_show_the_file
              (mk None [mkButton 0 (Mirror.label "Old") true true] [0%nat]
                  [0%nat] [] 1
                  (mkFs (Utf8 (Mirror.label "Ink" ++ [LF])) true true Posix)
                  []))
    as (d' & Hrun & Hlab & _ & _ & Hw & _ & _).
  exists d'. split; [exact Hrun|]. split; [exact Hlab|].
  split; [exact Hw|].
  vm_compute in Hrun. injection Hrun as <-. reflexivity.
Defined.

(** X21: a selector that has been found but has no items does not pass
    [if not self._combo]: [_sync_tags_from_krita] returns at once, opens
    no file and prints nothing, so the mirror file of an earlier run
    stays as it is, and [_on_tags_changed] rebuilds the buttons from
    that file. *)
Theorem empty_selector_is_not_mirrored (d : t) (c : QComboBox) :
  _combo d = Some c ->
  combo_items c = [] ->
  _sync_tags_from_krita d = Ok d
  /\ exists d' : t,
       _on_tags_changed d = Ok d'
       /\ fs d' = fs d
       /\ Mirror.button_labels d' = Selection.labels_on_file (fs d).
Proof.
  intros Hc Hnil.
  assert (Hskip : _sync_tags_from_krita d = Ok d).
  { unfold _sync_tags_from_krita.
    destruct (truthy_combo (_combo d)) as [c0|] eqn:Ht; [|reflexivity].
    apply truthy_combo_Some in Ht as [Ht Hne]. rewrite Hc in Ht.
    injection Ht as <-. contradiction. }
  split; [exact Hskip|].
  unfold _on_tags_changed. rewrite Hskip. cbn [mbind result_bind].
  destruct (rebuild_shows_file d) as (d' & Hrun & Hlab & Hfs & _).
  exists d'. split; [exact Hrun|]. split; [exact Hfs | exact Hlab].
Qed.

Lemma empty_selector_is_not_mirrored_witness :
  exists d' : t,
    _on_tags_changed
      (mk (Some (mkCombo [] (-1))) [] [] [] [] 0
          (mkFs (Utf8 (Mirror.label "Old" ++ [LF])) true true Posix) [])
      = Ok d'
    /\ tags_txt (fs d') = Utf8 (Mirror.label "Old" ++ [LF])
    /\ Mirror.button_labels d' = [Mirror.label "Old"].
Proof.
  destruct (empty_selector_is_not_mirrored
              (mk (Some (mkCombo [] (-1))) [] [] [] [] 0
                  (mkFs (Utf8 (Mirror.label "Old" ++ [LF])) true true Posix)
                  [])
              (mkCombo [] (-1)) eq_refl eq_refl)
    as (_ & d' & Hrun & Hfs & Hlab).
  exists d'. split; [exact Hrun|]. rewrite Hfs.
  split; [reflexivity | exact Hlab].
Defined.

End Renewal.
